(** * software-rasterizer

    The repository is one file, [src/main.cpp]: [main] initialises SDL, opens
    a window, creates a renderer, and runs a loop that drains the event
    queue, clears the screen and presents it until a window-close event
    arrives.  SDL itself is an external library: each call of [main] into it
    is recorded, in program order, in a call log, and what SDL answers (the
    status of [SDL_Init], the two handles, the events it hands out) is an
    input, the environment [Env].

    The first part of this file embeds [main] and proves what its call log
    looks like.  The second part covers the framebuffer and the depth test
    that the specification plans for the rasterizer; the source has neither
    yet, so that part follows the specification's contracts. *)

From Stdlib Require Import ZArith Lia Bool QArith Qcanon.
From stdpp Require Import base list sets strings numbers.

Local Open Scope Z_scope.

(** ** The SDL interface, as [main] uses it *)

Module Sdl.

(** Values of the SDL2 and C headers ([SDL.h], [cstdlib]). *)
Definition SDL_INIT_VIDEO : Z := 0x20.
Definition SDL_WINDOWPOS_CENTERED : Z := 0x2FFF0000.
Definition SDL_WINDOW_SHOWN : Z := 0x4.
Definition SDL_RENDERER_ACCELERATED : Z := 0x2.
Definition SDL_QUIT : Z := 0x100.
Definition EXIT_SUCCESS : Z := 0.
Definition EXIT_FAILURE : Z := 1.

(** A handle ([SDL_Window*], [SDL_Renderer*]); [NULL] is 0. *)
Definition ptr : Type := Z.
Definition NULL : ptr := 0.

(** [SDL_Event], reduced to the one field [main] reads. *)
Record SDL_Event : Type := { type : Z }.

(** One entry of the call log.  [Call_SDL_PollEvent] carries what the call
    returned: [Some e] for 1 with [e] stored in [event], [None] for 0.
    [Call_cerr] is one [std::cerr << text]; [Call_endl] is
    [std::cerr << std::endl], the end of the line and a flush. *)
Inductive Call : Type :=
| Call_SDL_Init (flags : Z)
| Call_SDL_GetError
| Call_cerr (text : string)
| Call_endl
| Call_SDL_CreateWindow (title : string) (x y w h flags : Z)
| Call_SDL_CreateRenderer (window : ptr) (index flags : Z)
| Call_SDL_PollEvent (returned : option SDL_Event)
| Call_SDL_SetRenderDrawColor (renderer : ptr) (r g b a : Z)
| Call_SDL_RenderClear (renderer : ptr)
| Call_SDL_RenderPresent (renderer : ptr)
| Call_SDL_DestroyRenderer (renderer : ptr)
| Call_SDL_DestroyWindow (window : ptr)
| Call_SDL_Quit.

(** What SDL answers during one run.  [frames] lists, for each pass of the
    outer loop, the events [SDL_PollEvent] hands out before it returns 0;
    once the list is used up the run is cut off, still inside the loop.  A
    pass whose polls never return 0 is not described: every batch is
    finite. *)
Record Env : Type := {
  init_status : Z;
  last_error : string;
  new_window : ptr;
  new_renderer : ptr;
  frames : list (list SDL_Event);
}.

(** A computation returns its value and the calls it made, oldest first. *)
Definition IO (A : Type) : Type := A * list Call.

Definition ret {A} (a : A) : IO A := (a, []).

Definition bind {A B} (m : IO A) (k : A -> IO B) : IO B :=
  let '(a, l1) := m in
  let '(b, l2) := k a in
  (b, l1 ++ l2).

Definition call {A} (c : Call) (answer : A) : IO A := (answer, [c]).

Definition calls {A} (m : IO A) : list Call := snd m.
Definition value {A} (m : IO A) : A := fst m.

Definition SDL_Init (env : Env) (flags : Z) : IO Z :=
  call (Call_SDL_Init flags) (init_status env).
Definition SDL_GetError (env : Env) : IO string :=
  call Call_SDL_GetError (last_error env).
Definition cerr (text : string) : IO unit :=
  call (Call_cerr text) tt.
Definition endl : IO unit :=
  call Call_endl tt.
Definition SDL_CreateWindow (env : Env) (title : string) (x y w h flags : Z)
  : IO ptr :=
  call (Call_SDL_CreateWindow title x y w h flags) (new_window env).
Definition SDL_CreateRenderer (env : Env) (window : ptr) (index flags : Z)
  : IO ptr :=
  call (Call_SDL_CreateRenderer window index flags) (new_renderer env).
Definition SDL_PollEvent (returned : option SDL_Event)
  : IO (option SDL_Event) :=
  call (Call_SDL_PollEvent returned) returned.
Definition SDL_SetRenderDrawColor (renderer : ptr) (r g b a : Z) : IO unit :=
  call (Call_SDL_SetRenderDrawColor renderer r g b a) tt.
Definition SDL_RenderClear (renderer : ptr) : IO unit :=
  call (Call_SDL_RenderClear renderer) tt.
Definition SDL_RenderPresent (renderer : ptr) : IO unit :=
  call (Call_SDL_RenderPresent renderer) tt.
Definition SDL_DestroyRenderer (renderer : ptr) : IO unit :=
  call (Call_SDL_DestroyRenderer renderer) tt.
Definition SDL_DestroyWindow (window : ptr) : IO unit :=
  call (Call_SDL_DestroyWindow window) tt.
Definition SDL_Quit : IO unit :=
  call Call_SDL_Quit tt.

End Sdl.

Import Sdl.

Declare Scope io_scope.
Delimit Scope io_scope with io.
Notation "x <- m ;; k" := (bind m (fun x => k))
  (at level 100, m at next level, right associativity) : io_scope.
Notation "m ;; k" := (bind m (fun _ => k))
  (at level 100, right associativity) : io_scope.
Local Open Scope io_scope.

(** ** [src/main.cpp] *)

Definition SCREEN_WIDTH : Z := 800.
Definition SCREEN_HEIGHT : Z := 600.

(** [SdlWindowDeleter::operator()]: [if (w) SDL_DestroyWindow(w);] *)
Definition SdlWindowDeleter (w : ptr) : IO unit :=
  if w =? NULL then ret tt else SDL_DestroyWindow w.

(** [SdlRendererDeleter::operator()]: [if (r) SDL_DestroyRenderer(r);] *)
Definition SdlRendererDeleter (r : ptr) : IO unit :=
  if r =? NULL then ret tt else SDL_DestroyRenderer r.

(** The destructor of [std::unique_ptr<T, D>]: the deleter runs on the held
    pointer unless that pointer is null. *)
Definition unique_ptr_dtor (deleter : ptr -> IO unit) (p : ptr) : IO unit :=
  if p =? NULL then ret tt else deleter p.

(** Leaving the scope of a [UniqueSdlWindow] / [UniqueSdlRenderer]. *)
Definition UniqueSdlWindow_dtor (window : ptr) : IO unit :=
  unique_ptr_dtor SdlWindowDeleter window.
Definition UniqueSdlRenderer_dtor (renderer : ptr) : IO unit :=
  unique_ptr_dtor SdlRendererDeleter renderer.

(** The body of the inner loop: [if (event.type == SDL_QUIT) running = false;] *)
Definition handle_event (event : SDL_Event) (running : bool) : bool :=
  if type event =? SDL_QUIT then false else running.

(** [while (SDL_PollEvent(&event)) { ... }] run on the events the queue
    holds; the result is [running] when the loop ends. *)
Fixpoint poll_events (pending : list SDL_Event) (running : bool) : IO bool :=
  match pending with
  | event :: pending' =>
      _ <- SDL_PollEvent (Some event) ;;
      poll_events pending' (handle_event event running)
  | [] =>
      _ <- SDL_PollEvent None ;;
      ret running
  end.

(** The rendering part of one pass of the outer loop. *)
Definition render (renderer : ptr) : IO unit :=
  SDL_SetRenderDrawColor renderer 20 20 30 255 ;;
  SDL_RenderClear renderer ;;
  SDL_RenderPresent renderer.

(** [while (running) { poll; render }].  The result is the value of [running]
    when the run stops: [false] when the loop has exited, [true] when the
    environment's script of frames is used up with the loop still going. *)
Fixpoint main_loop (frames : list (list SDL_Event)) (renderer : ptr)
    (running : bool) : IO bool :=
  match frames with
  | pending :: later =>
      if running then
        running' <- poll_events pending running ;;
        render renderer ;;
        main_loop later renderer running'
      else ret false
  | [] => ret running
  end.

(** [main].  [Some code] is the value [main] returns; [None] means the script
    of frames ended inside the loop.  On each return the destructors of the
    locals in scope run in reverse order of declaration, after the statements
    before the [return].  A statement
    [std::cerr << text << SDL_GetError() << std::endl] is its three
    insertions in order, with the call of [SDL_GetError] between the first
    and the second. *)
Definition main (env : Env) : IO (option Z) :=
  status <- SDL_Init env SDL_INIT_VIDEO ;;
  if status <? 0 then
    cerr "SDL could not initialize! SDL_Error: " ;;
    error <- SDL_GetError env ;;
    cerr error ;;
    endl ;;
    ret (Some EXIT_FAILURE)
  else
    window <- SDL_CreateWindow env "Software Rasterizer"
                SDL_WINDOWPOS_CENTERED SDL_WINDOWPOS_CENTERED
                SCREEN_WIDTH SCREEN_HEIGHT SDL_WINDOW_SHOWN ;;
    if window =? NULL then
      cerr "Window could not be created! SDL_Error: " ;;
      error <- SDL_GetError env ;;
      cerr error ;;
      endl ;;
      SDL_Quit ;;
      UniqueSdlWindow_dtor window ;;
      ret (Some EXIT_FAILURE)
    else
      renderer <- SDL_CreateRenderer env window (-1) SDL_RENDERER_ACCELERATED ;;
      if renderer =? NULL then
        cerr "Renderer could not be created! SDL_Error: " ;;
        error <- SDL_GetError env ;;
        cerr error ;;
        endl ;;
        SDL_Quit ;;
        UniqueSdlRenderer_dtor renderer ;;
        UniqueSdlWindow_dtor window ;;
        ret (Some EXIT_FAILURE)
      else
        running <- main_loop (frames env) renderer true ;;
        if running then ret None
        else
          SDL_Quit ;;
          UniqueSdlRenderer_dtor renderer ;;
          UniqueSdlWindow_dtor window ;;
          ret (Some EXIT_SUCCESS).

(** ** Reading a call log *)

Definition is_quit (event : SDL_Event) : bool := type event =? SDL_QUIT.

(** Whether a batch of pending events holds a window-close event. *)
Definition has_quit (pending : list SDL_Event) : bool := existsb is_quit pending.

(** The events a log shows [SDL_PollEvent] to have handed out. *)
Definition polled (log : list Call) : list SDL_Event :=
  omap (fun c => match c with Call_SDL_PollEvent r => r | _ => None end) log.

(** The log without its [SDL_PollEvent] entries. *)
Definition is_poll (c : Call) : bool :=
  match c with Call_SDL_PollEvent _ => true | _ => false end.
Definition without_polls (log : list Call) : list Call :=
  List.filter (fun c => negb (is_poll c)) log.

(** The three rendering calls of one pass, and the whole pass: one poll per
    pending event, the poll that returns 0, then the rendering calls. *)
Definition render_calls (renderer : ptr) : list Call :=
  [Call_SDL_SetRenderDrawColor renderer 20 20 30 255;
   Call_SDL_RenderClear renderer;
   Call_SDL_RenderPresent renderer].
Definition poll_calls (pending : list SDL_Event) : list Call :=
  map (fun e => Call_SDL_PollEvent (Some e)) pending.
Definition frame_calls (renderer : ptr) (pending : list SDL_Event) : list Call :=
  poll_calls pending ++ Call_SDL_PollEvent None :: render_calls renderer.

(** The frames the loop goes through: all up to and including the first one
    that holds a window-close event. *)
Fixpoint played (frames : list (list SDL_Event)) : list (list SDL_Event) :=
  match frames with
  | pending :: later =>
      pending :: (if has_quit pending then [] else played later)
  | [] => []
  end.

(** The window-close events of each frame, all other events dropped. *)
Definition only_quits (frames : list (list SDL_Event)) : list (list SDL_Event) :=
  map (List.filter is_quit) frames.

(** The calls of [main] before the loop when nothing fails, and after it. *)
Definition startup_calls (env : Env) : list Call :=
  [Call_SDL_Init SDL_INIT_VIDEO;
   Call_SDL_CreateWindow "Software Rasterizer" SDL_WINDOWPOS_CENTERED
     SDL_WINDOWPOS_CENTERED SCREEN_WIDTH SCREEN_HEIGHT SDL_WINDOW_SHOWN;
   Call_SDL_CreateRenderer (new_window env) (-1) SDL_RENDERER_ACCELERATED].

Definition cleanup_calls (env : Env) : list Call :=
  [Call_SDL_Quit;
   Call_SDL_DestroyRenderer (new_renderer env);
   Call_SDL_DestroyWindow (new_window env)].

(** What a log shows to have been acquired and released. *)
Inductive Resource : Type :=
| Library
| Window (w : ptr)
| Renderer (r : ptr).

Definition acquired (env : Env) (log : list Call) : list Resource :=
  omap (fun c =>
          match c with
          | Call_SDL_Init _ =>
              if init_status env <? 0 then None else Some Library
          | Call_SDL_CreateWindow _ _ _ _ _ _ =>
              if new_window env =? NULL then None
              else Some (Window (new_window env))
          | Call_SDL_CreateRenderer _ _ _ =>
              if new_renderer env =? NULL then None
              else Some (Renderer (new_renderer env))
          | _ => None
          end) log.

Definition released (log : list Call) : list Resource :=
  omap (fun c =>
          match c with
          | Call_SDL_Quit => Some Library
          | Call_SDL_DestroyWindow w => Some (Window w)
          | Call_SDL_DestroyRenderer r => Some (Renderer r)
          | _ => None
          end) log.

(** The window handles and the renderer handles a log shows to have been
    passed to SDL. *)
Definition window_args (log : list Call) : list ptr :=
  omap (fun c =>
          match c with
          | Call_SDL_CreateRenderer window _ _ => Some window
          | Call_SDL_DestroyWindow window => Some window
          | _ => None
          end) log.

Definition renderer_args (log : list Call) : list ptr :=
  omap (fun c =>
          match c with
          | Call_SDL_SetRenderDrawColor renderer _ _ _ _ => Some renderer
          | Call_SDL_RenderClear renderer => Some renderer
          | Call_SDL_RenderPresent renderer => Some renderer
          | Call_SDL_DestroyRenderer renderer => Some renderer
          | _ => None
          end) log.

(** The end of a line. *)
Definition newline : string := String (Ascii.ascii_of_nat 10) "".

(** What a log shows to have been inserted into [std::cerr], piece by piece:
    each text, and a newline for each [std::endl]. *)
Definition reports (log : list Call) : list string :=
  omap (fun c =>
          match c with
          | Call_cerr text => Some text
          | Call_endl => Some newline
          | _ => None
          end) log.

(** How often a log shows [std::cerr] to have been flushed by [std::endl]. *)
Definition flushes (log : list Call) : nat :=
  length (List.filter (fun c => match c with Call_endl => true | _ => false end)
            log).

(** The drawing calls of a log: those that set the colour, clear or present. *)
Definition is_drawing (c : Call) : bool :=
  match c with
  | Call_SDL_SetRenderDrawColor _ _ _ _ _ => true
  | Call_SDL_RenderClear _ => true
  | Call_SDL_RenderPresent _ => true
  | _ => false
  end.
Definition drawing (log : list Call) : list Call := List.filter is_drawing log.

(** The environment with more frames of events queued after its own. *)
Definition with_more_frames (env : Env) (more : list (list SDL_Event)) : Env :=
  {| init_status := init_status env; last_error := last_error env;
     new_window := new_window env; new_renderer := new_renderer env;
     frames := frames env ++ more |}.

(** Sample inputs. *)
Definition quit_event : SDL_Event := {| type := SDL_QUIT |}.
Definition key_event : SDL_Event := {| type := 0x300 |}.
Definition sample_env (fs : list (list SDL_Event)) : Env :=
  {| init_status := 0; last_error := ""; new_window := 1000;
     new_renderer := 2000; frames := fs |}.

(** * The framebuffer and the depth test of the planned rasterizer

    [src/main.cpp] holds no framebuffer and no depth test: a comment in the
    loop marks where the software framebuffer will be drawn (lines 96-97).
    The definitions of this part follow the contracts of spec sections 3,
    4.1, 4.4 and 4.5 instead.  Depth values are rationals ([Qc]); fragments
    are taken as given, since the rasterizer that is to produce them does
    not exist either. *)

(** Modelled from the spec: the colour value of one pixel (section 3, a
    colour of 4 components); no pixel type exists in the source. *)
Record Color : Type := { red : Z; green : Z; blue : Z; alpha : Z }.

(** Modelled from the spec: one plane of the framebuffer (section 3: fixed
    width x height, one value per pixel, contiguous and row-major by sections
    2 and 6); the source has no framebuffer. *)
Record Plane (A : Type) : Type := {
  plane_width : Z;
  plane_height : Z;
  cells : list A;
}.
Arguments plane_width {A} _.
Arguments plane_height {A} _.
Arguments cells {A} _.

(** Modelled from the spec: the Framebuffer of section 3, "two parallel
    planes", colour and depth; the source has no framebuffer. *)
Record Framebuffer : Type := {
  color : Plane Color;
  depth : Plane Qc;
}.

(** Modelled from the spec: a plane of valid (positive) dimensions that
    holds "one value per pixel" (sections 3 and 7); the source has no
    framebuffer. *)
Definition plane_wf {A} (p : Plane A) : Prop :=
  0 < plane_width p /\ 0 < plane_height p
  /\ Z.of_nat (length (cells p)) = plane_width p * plane_height p.

(** Modelled from the spec: the invariant of section 3 for the whole
    framebuffer, "dimensions of color and depth planes are always equal",
    both planes being well formed; the source has no framebuffer. *)
Definition Framebuffer_inv (fb : Framebuffer) : Prop :=
  plane_width (color fb) = plane_width (depth fb)
  /\ plane_height (color fb) = plane_height (depth fb)
  /\ plane_wf (color fb) /\ plane_wf (depth fb).

(** Modelled from the spec: the bounds check of [setPixel] and [setDepth]
    (section 4.1); the source has no framebuffer. *)
Definition in_bounds {A} (p : Plane A) (x y : Z) : bool :=
  (0 <=? x) && (x <? plane_width p) && (0 <=? y) && (y <? plane_height p).

(** Modelled from the spec: the position of pixel (x,y) in a "row-major"
    buffer (section 6); the source has no framebuffer. *)
Definition offset {A} (p : Plane A) (x y : Z) : nat :=
  Z.to_nat (y * plane_width p + x).

(** Modelled from the spec: reading one value of a plane (section 2, "pixel
    read/write"); outside the plane there is nothing to read.  The source
    has no framebuffer. *)
Definition plane_get {A} (p : Plane A) (x y : Z) : option A :=
  if in_bounds p x y then cells p !! offset p x y else None.

(** Modelled from the spec: writing one value of a plane, "bounds-checked;
    out-of-range coordinates are silently ignored" (section 4.1); the source
    has no framebuffer. *)
Definition plane_set {A} (p : Plane A) (x y : Z) (v : A) : Plane A :=
  if in_bounds p x y
  then {| plane_width := plane_width p; plane_height := plane_height p;
          cells := <[offset p x y := v]> (cells p) |}
  else p.

(** Modelled from the spec: the pixel read of the Framebuffer (section 2),
    on the colour plane; the source has no framebuffer. *)
Definition getPixel (fb : Framebuffer) (x y : Z) : option Color :=
  plane_get (color fb) x y.

(** Modelled from the spec: the pixel read of the Framebuffer (section 2),
    on the depth plane, as the depth test needs it (section 4.4); the source
    has no framebuffer. *)
Definition getDepth (fb : Framebuffer) (x y : Z) : option Qc :=
  plane_get (depth fb) x y.

(** Modelled from the spec: [setPixel(x,y,color)] of section 4.1; the source
    has no framebuffer. *)
Definition setPixel (fb : Framebuffer) (x y : Z) (c : Color) : Framebuffer :=
  {| color := plane_set (color fb) x y c; depth := depth fb |}.

(** Modelled from the spec: [setDepth(x,y,value)] of section 4.1; the source
    has no framebuffer. *)
Definition setDepth (fb : Framebuffer) (x y : Z) (value : Qc) : Framebuffer :=
  {| color := color fb; depth := plane_set (depth fb) x y value |}.

(** Modelled from the spec: a plane of the given dimensions with every pixel
    set to one value, as [clear] and [resize] produce (section 4.1); the
    source has no framebuffer. *)
Definition filled {A} (width height : Z) (v : A) : Plane A :=
  {| plane_width := width; plane_height := height;
     cells := replicate (Z.to_nat (width * height)) v |}.

(** Modelled from the spec: [clear(color, depth)] "resets every pixel"
    (section 4.1); the source has no framebuffer. *)
Definition clear (fb : Framebuffer) (c : Color) (d : Qc) : Framebuffer :=
  {| color := filled (plane_width (color fb)) (plane_height (color fb)) c;
     depth := filled (plane_width (depth fb)) (plane_height (depth fb)) d |}.

(** Modelled from the spec: the error kinds of section 7 that a Framebuffer
    call can fail with; the source has no framebuffer. *)
Inductive Error : Type :=
| InvalidDimensions.

(** Modelled from the spec: the colour the new colour plane holds after
    [resize], which the spec leaves open; the black of section 8 stands in.
    The source has no framebuffer. *)
Definition black : Color := {| red := 0; green := 0; blue := 0; alpha := 255 |}.

(** Modelled from the spec: the "far" sentinel of the depth plane (section
    3), 1 as in section 8; the source has no framebuffer. *)
Definition far_depth : Qc := 1%Qc.

(** Modelled from the spec: [resize(width, height)] "reallocates both planes,
    invalid for width<=0 or height<=0 (fails with InvalidDimensions)", and on
    that failure the "framebuffer retains previous valid dimensions"
    (sections 4.1 and 7).  The result pairs the framebuffer after the call
    with the error, if any.  The source has no framebuffer. *)
Definition resize (fb : Framebuffer) (width height : Z)
    : Framebuffer * option Error :=
  if (width <=? 0) || (height <=? 0)
  then (fb, Some InvalidDimensions)
  else ({| color := filled width height black;
           depth := filled width height far_depth |}, None).

(** Modelled from the spec: the Fragment of section 3, "integer (x,y),
    interpolated depth, interpolated attributes" (here the colour); the
    source has no rasterizer. *)
Record Fragment : Type := {
  frag_x : Z;
  frag_y : Z;
  frag_depth : Qc;
  frag_color : Color;
}.

(** Modelled from the spec: the render state of a draw command (section 3:
    "fill vs wireframe, depth-test enabled/disabled"); the source has no
    draw commands. *)
Record RenderState : Type := {
  wireframe : bool;
  depth_test : bool;
}.

(** Modelled from the spec: "write color and update depth" (section 4.4),
    through the bounds-checked [setPixel] and [setDepth]; the source has no
    depth test. *)
Definition write_fragment (fb : Framebuffer) (f : Fragment) : Framebuffer :=
  setDepth (setPixel fb (frag_x f) (frag_y f) (frag_color f))
    (frag_x f) (frag_y f) (frag_depth f).

(** Modelled from the spec: the comparison of section 4.4, "closer wins
    (lower value passes)", against the depth the framebuffer holds at the
    fragment's pixel; a fragment outside the framebuffer has no depth to be
    compared with and does not pass.  The source has no depth test. *)
Definition passes (fb : Framebuffer) (f : Fragment) : bool :=
  match getDepth fb (frag_x f) (frag_y f) with
  | Some current => bool_decide (frag_depth f < current)%Qc
  | None => false
  end.

(** Modelled from the spec: the Depth/Visibility Test of section 4.4: with
    the depth test enabled, "on pass, write color and update depth; on fail,
    discard the fragment with no side effect"; with it disabled, "always
    write (overwrite) unconditionally".  The source has no depth test. *)
Definition depth_stage (state : RenderState) (fb : Framebuffer) (f : Fragment)
    : Framebuffer :=
  if depth_test state
  then if passes fb f then write_fragment fb f else fb
  else write_fragment fb f.

(** Modelled from the spec: the last stage of [submit(drawCommand)] (section
    4.5): the fragments of the primitive go through the depth test one after
    the other, and "multiple submit calls within a frame are processed
    strictly in submission order".  The source has no pipeline driver. *)
Definition submit_fragments (state : RenderState) (fb : Framebuffer)
    (fragments : list Fragment) : Framebuffer :=
  foldl (depth_stage state) fb fragments.

(** Modelled from the spec: the pixel a fragment is for; the source has no
    rasterizer. *)
Definition pixel (f : Fragment) : Z * Z := (frag_x f, frag_y f).

(** Modelled from the spec: of two fragments for one pixel one is the
    closer, its depth the lower ("smaller = nearer", section 4.4), as with
    the far and the near triangle of section 8; fragments for different
    pixels do not compete.  The source has no depth test. *)
Definition one_is_closer (f g : Fragment) : Prop :=
  pixel f = pixel g ->
  (frag_depth f < frag_depth g)%Qc \/ (frag_depth g < frag_depth f)%Qc.

(** Sample inputs: a cleared 2x2 framebuffer, and fragments for its pixels. *)
Definition red_color : Color := {| red := 255; green := 0; blue := 0; alpha := 255 |}.
Definition blue_color : Color := {| red := 0; green := 0; blue := 255; alpha := 255 |}.
Definition sample_fb : Framebuffer :=
  {| color := filled 2 2 black; depth := filled 2 2 far_depth |}.
Definition depth_on : RenderState := {| wireframe := false; depth_test := true |}.
Definition depth_off : RenderState := {| wireframe := false; depth_test := false |}.
Definition fragment_at (x y : Z) (d : Qc) (c : Color) : Fragment :=
  {| frag_x := x; frag_y := y; frag_depth := d; frag_color := c |}.
Definition half : Qc := Q2Qc (1 # 2).
Definition quarter : Qc := Q2Qc (1 # 4).

(** * Properties of [main] *)

Section IO_facts.
Context {A B : Type}.

Lemma calls_bind (m : IO A) (k : A -> IO B) :
  calls (bind m k) = calls m ++ calls (k (value m)).
Proof. destruct m as [a l1]; cbn. destruct (k a); reflexivity. Qed.

Lemma value_bind (m : IO A) (k : A -> IO B) :
  value (bind m k) = value (k (value m)).
Proof. destruct m as [a l1]; cbn. destruct (k a); reflexivity. Qed.

Lemma io_eta (m : IO A) : m = (value m, calls m).
Proof. destruct m; reflexivity. Qed.
End IO_facts.

Lemma handle_event_spec event running :
  handle_event event running = running && negb (is_quit event).
Proof.
  unfold handle_event, is_quit.
  destruct (type event =? SDL_QUIT), running; reflexivity.
Qed.

Lemma poll_events_value pending running :
  value (poll_events pending running) = running && negb (has_quit pending).
Proof.
  revert running; induction pending as [|e pending IH]; intros running;
    cbn [poll_events].
  - destruct running; reflexivity.
  - rewrite value_bind, IH, handle_event_spec. cbn [has_quit existsb].
    destruct running, (is_quit e); reflexivity.
Qed.

Lemma poll_events_calls pending running :
  calls (poll_events pending running)
  = poll_calls pending ++ [Call_SDL_PollEvent None].
Proof.
  revert running; induction pending as [|e pending IH]; intros running;
    cbn [poll_events].
  - reflexivity.
  - rewrite calls_bind, IH. reflexivity.
Qed.

Lemma render_calls_spec renderer :
  render renderer = (tt, render_calls renderer).
Proof. reflexivity. Qed.

(** One pass of the loop, unfolded. *)
Lemma main_loop_step pending later renderer :
  main_loop (pending :: later) renderer true
  = (value (main_loop later renderer (negb (has_quit pending))),
     frame_calls renderer pending
       ++ calls (main_loop later renderer (negb (has_quit pending)))).
Proof.
  cbn [main_loop].
  rewrite (io_eta (bind _ _)), value_bind, calls_bind.
  rewrite poll_events_value, poll_events_calls; cbn [andb].
  rewrite value_bind, calls_bind, render_calls_spec; cbn [value calls fst snd].
  unfold frame_calls. rewrite <- !app_assoc. reflexivity.
Qed.

Lemma main_loop_stopped frames renderer :
  main_loop frames renderer false = (false, []).
Proof. destruct frames; reflexivity. Qed.

Lemma main_loop_value frames renderer :
  value (main_loop frames renderer true) = negb (existsb has_quit frames).
Proof.
  induction frames as [|pending later IH]; [reflexivity|].
  rewrite main_loop_step; cbn [value fst existsb].
  destruct (has_quit pending); cbn [negb orb].
  - rewrite main_loop_stopped. reflexivity.
  - exact IH.
Qed.

Lemma main_loop_calls frames renderer :
  calls (main_loop frames renderer true)
  = concat (map (frame_calls renderer) (played frames)).
Proof.
  induction frames as [|pending later IH]; [reflexivity|].
  rewrite main_loop_step; cbn [calls snd played map concat].
  destruct (has_quit pending); cbn [negb map concat].
  - rewrite main_loop_stopped. reflexivity.
  - rewrite IH. reflexivity.
Qed.

(** *** What the loop polls *)

Lemma polled_app l1 l2 : polled (l1 ++ l2) = polled l1 ++ polled l2.
Proof. apply omap_app. Qed.

Lemma polled_poll_calls pending : polled (poll_calls pending) = pending.
Proof.
  induction pending as [|e pending IH]; [reflexivity|].
  cbn. unfold polled, poll_calls in IH. rewrite IH. reflexivity.
Qed.

Lemma polled_frame_calls renderer pending :
  polled (frame_calls renderer pending) = pending.
Proof.
  unfold frame_calls. rewrite polled_app, polled_poll_calls.
  apply app_nil_r.
Qed.

Lemma polled_main_loop frames renderer :
  polled (calls (main_loop frames renderer true)) = concat (played frames).
Proof.
  rewrite main_loop_calls.
  induction (played frames) as [|pending fs IH]; [reflexivity|].
  cbn [map concat]. rewrite polled_app, polled_frame_calls, IH. reflexivity.
Qed.

Lemma has_quit_spec pending :
  has_quit pending = true <-> exists event, event ∈ pending /\ type event = SDL_QUIT.
Proof.
  unfold has_quit. rewrite existsb_exists. unfold is_quit.
  split; intros (e & He & Hq); exists e.
  - split; [now apply list_elem_of_In | lia].
  - split; [now apply list_elem_of_In | lia].
Qed.

Lemma quit_in_played frames :
  existsb has_quit frames = true
  <-> exists event, event ∈ concat (played frames) /\ type event = SDL_QUIT.
Proof.
  induction frames as [|pending later IH]; cbn [existsb played concat].
  - split; [discriminate|]. intros (e & He & _). inversion He.
  - destruct (has_quit pending) eqn:Hq; cbn [orb concat].
    + split; [intros _|reflexivity].
      apply has_quit_spec in Hq as (e & He & Ht).
      exists e. rewrite app_nil_r. auto.
    + rewrite IH. split; intros (e & He & Ht); exists e; split; auto.
      * apply elem_of_app; auto.
      * apply elem_of_app in He as [He|He]; [|assumption].
        exfalso. assert (has_quit pending = true) as Hq'
          by (apply has_quit_spec; eauto).
        congruence.
Qed.

(** *** What the loop does besides polling *)

Lemma without_polls_app l1 l2 :
  without_polls (l1 ++ l2) = without_polls l1 ++ without_polls l2.
Proof. apply List.filter_app. Qed.

Lemma without_polls_poll_calls pending : without_polls (poll_calls pending) = [].
Proof. induction pending as [|e pending IH]; [reflexivity|exact IH]. Qed.

Lemma without_polls_frame_calls renderer pending :
  without_polls (frame_calls renderer pending) = render_calls renderer.
Proof.
  unfold frame_calls.
  rewrite without_polls_app, without_polls_poll_calls. reflexivity.
Qed.

Lemma without_polls_main_loop frames renderer :
  without_polls (calls (main_loop frames renderer true))
  = concat (replicate (length (played frames)) (render_calls renderer)).
Proof.
  rewrite main_loop_calls.
  induction (played frames) as [|pending fs IH]; [reflexivity|].
  cbn [map concat length replicate].
  rewrite without_polls_app, without_polls_frame_calls, IH. reflexivity.
Qed.

Lemma has_quit_filter pending :
  has_quit (List.filter is_quit pending) = has_quit pending.
Proof.
  induction pending as [|e pending IH]; [reflexivity|].
  cbn. destruct (is_quit e) eqn:He; cbn; rewrite ?He; [reflexivity|exact IH].
Qed.


Lemma existsb_only_quits frames :
  existsb has_quit (only_quits frames) = existsb has_quit frames.
Proof.
  induction frames as [|pending later IH]; [reflexivity|].
  cbn. rewrite has_quit_filter, <- IH. reflexivity.
Qed.

Lemma played_only_quits frames :
  length (played (only_quits frames)) = length (played frames).
Proof.
  induction frames as [|pending later IH]; [reflexivity|].
  cbn [only_quits map played length]. rewrite has_quit_filter.
  destruct (has_quit pending); [reflexivity|].
  f_equal. exact IH.
Qed.

(** *** [main] once SDL, the window and the renderer are there *)


Lemma main_init_failed env :
  init_status env < 0 ->
  main env
  = (Some EXIT_FAILURE,
     [Call_SDL_Init SDL_INIT_VIDEO;
      Call_cerr "SDL could not initialize! SDL_Error: ";
      Call_SDL_GetError;
      Call_cerr (last_error env);
      Call_endl]).
Proof.
  intros Hi. unfold main, SDL_Init. unfold call at 1. cbn [bind].
  destruct (init_status env <? 0) eqn:E; [reflexivity|lia].
Qed.

Lemma main_window_failed env :
  0 <= init_status env -> new_window env = NULL ->
  main env
  = (Some EXIT_FAILURE,
     [Call_SDL_Init SDL_INIT_VIDEO;
      Call_SDL_CreateWindow "Software Rasterizer" SDL_WINDOWPOS_CENTERED
        SDL_WINDOWPOS_CENTERED SCREEN_WIDTH SCREEN_HEIGHT SDL_WINDOW_SHOWN;
      Call_cerr "Window could not be created! SDL_Error: ";
      Call_SDL_GetError;
      Call_cerr (last_error env);
      Call_endl;
      Call_SDL_Quit]).
Proof.
  intros Hi Hw. unfold main, SDL_Init, SDL_CreateWindow.
  unfold call at 1. cbn [bind].
  destruct (init_status env <? 0) eqn:E; [lia|].
  unfold call at 1. cbn [bind].
  unfold UniqueSdlWindow_dtor, unique_ptr_dtor.
  rewrite Hw. reflexivity.
Qed.

Lemma main_renderer_failed env :
  0 <= init_status env -> new_window env <> NULL -> new_renderer env = NULL ->
  main env
  = (Some EXIT_FAILURE,
     startup_calls env
       ++ [Call_cerr "Renderer could not be created! SDL_Error: ";
           Call_SDL_GetError;
           Call_cerr (last_error env);
           Call_endl;
           Call_SDL_Quit;
           Call_SDL_DestroyWindow (new_window env)]).
Proof.
  intros Hi Hw Hr. unfold main, SDL_Init, SDL_CreateWindow, SDL_CreateRenderer.
  unfold call at 1. cbn [bind].
  destruct (init_status env <? 0) eqn:E; [lia|].
  unfold call at 1. cbn [bind].
  destruct (new_window env =? NULL) eqn:Ew; [lia|].
  unfold call at 1. cbn [bind].
  unfold UniqueSdlRenderer_dtor, UniqueSdlWindow_dtor, unique_ptr_dtor,
    SdlWindowDeleter.
  rewrite Hr, Ew. reflexivity.
Qed.

Lemma main_started env :
  0 <= init_status env -> new_window env <> NULL -> new_renderer env <> NULL ->
  main env
  = if value (main_loop (frames env) (new_renderer env) true)
    then (None,
          startup_calls env
            ++ calls (main_loop (frames env) (new_renderer env) true))
    else (Some EXIT_SUCCESS,
          startup_calls env
            ++ calls (main_loop (frames env) (new_renderer env) true)
            ++ cleanup_calls env).
Proof.
  intros Hi Hw Hr. unfold main, SDL_Init, SDL_CreateWindow, SDL_CreateRenderer.
  unfold call at 1. cbn [bind].
  destruct (init_status env <? 0) eqn:E; [lia|].
  unfold call at 1. cbn [bind].
  destruct (new_window env =? NULL) eqn:Ew; [lia|].
  unfold call at 1. cbn [bind].
  destruct (new_renderer env =? NULL) eqn:Er; [lia|].
  destruct (main_loop (frames env) (new_renderer env) true) as [running log].
  cbn [value calls fst snd].
  unfold UniqueSdlRenderer_dtor, UniqueSdlWindow_dtor, unique_ptr_dtor,
    SdlRendererDeleter, SdlWindowDeleter.
  rewrite Ew, Er.
  destruct running; cbn; rewrite ?app_nil_r; reflexivity.
Qed.

Lemma played_until_quit before pending later :
  Forall (fun p => has_quit p = false) before ->
  has_quit pending = true ->
  played (before ++ pending :: later) = before ++ [pending].
Proof.
  intros Hb Hq. induction Hb as [|p before Hp _ IH]; cbn [app played].
  - rewrite Hq. reflexivity.
  - rewrite Hp, IH. reflexivity.
Qed.

Lemma existsb_until_quit before pending later :
  has_quit pending = true ->
  existsb has_quit (before ++ pending :: later) = true.
Proof.
  intros Hq. rewrite existsb_app. cbn. rewrite Hq.
  destruct (existsb has_quit before); reflexivity.
Qed.

(** *** The loop acquires and releases nothing *)

Ltac distinct_resources :=
  repeat (apply list.NoDup_cons; split;
          [rewrite ?elem_of_cons, ?elem_of_nil; intuition discriminate|]);
  apply NoDup_nil_2.

Lemma released_frames renderer fs :
  released (concat (map (frame_calls renderer) fs)) = [].
Proof.
  induction fs as [|pending fs IH]; [reflexivity|].
  cbn [map concat]. unfold released in *. rewrite omap_app, IH, app_nil_r.
  unfold frame_calls. rewrite omap_app.
  induction pending as [|e pending IHp]; [reflexivity|exact IHp].
Qed.

Lemma acquired_frames env renderer fs :
  acquired env (concat (map (frame_calls renderer) fs)) = [].
Proof.
  induction fs as [|pending fs IH]; [reflexivity|].
  cbn [map concat]. unfold acquired in *. rewrite omap_app, IH, app_nil_r.
  unfold frame_calls. rewrite omap_app.
  induction pending as [|e pending IHp]; [reflexivity|exact IHp].
Qed.

(** ** The claims about [main] *)

(** C1.  In the main event loop only a window-close event matters: handling
    an event of any other type leaves [running] as it was; the loop exits
    exactly when an [SDL_QUIT] event is among the events it has polled; and
    dropping every other event from the queue changes neither whether the
    loop exits nor any call it makes besides the polls. *)
Theorem only_quit_ends_the_loop :
  (forall event running,
      type event <> SDL_QUIT -> handle_event event running = running)
  /\ (forall frames renderer,
        value (main_loop frames renderer true) = false
        <-> exists event,
            event ∈ polled (calls (main_loop frames renderer true))
            /\ type event = SDL_QUIT)
  /\ (forall frames renderer,
        value (main_loop (only_quits frames) renderer true)
        = value (main_loop frames renderer true)
        /\ without_polls (calls (main_loop (only_quits frames) renderer true))
           = without_polls (calls (main_loop frames renderer true))).
Proof.
  split; [|split].
  - intros event running Hne. unfold handle_event.
    destruct (type event =? SDL_QUIT) eqn:E; [lia|reflexivity].
  - intros frames renderer.
    rewrite main_loop_value, polled_main_loop, <- quit_in_played.
    destruct (existsb has_quit frames); cbn; split; congruence.
  - intros frames renderer. split.
    + rewrite !main_loop_value, existsb_only_quits. reflexivity.
    + rewrite !without_polls_main_loop, played_only_quits. reflexivity.
Qed.

(** C2.  Every pass of the main loop makes, after its polls, exactly the
    calls [SDL_SetRenderDrawColor(renderer, 20, 20, 30, 255)],
    [SDL_RenderClear(renderer)], [SDL_RenderPresent(renderer)], in this order
    and once each: the log of the loop is, pass after pass, the polls of the
    pass followed by these three calls; and the calls besides the polls are
    this triple repeated once per pass. *)
Theorem every_frame_clears_and_presents frames renderer :
  calls (main_loop frames renderer true)
  = concat (map (fun pending =>
                   poll_calls pending
                     ++ [Call_SDL_PollEvent None;
                         Call_SDL_SetRenderDrawColor renderer 20 20 30 255;
                         Call_SDL_RenderClear renderer;
                         Call_SDL_RenderPresent renderer])
                (played frames))
  /\ without_polls (calls (main_loop frames renderer true))
     = concat (replicate (length (played frames))
                 [Call_SDL_SetRenderDrawColor renderer 20 20 30 255;
                  Call_SDL_RenderClear renderer;
                  Call_SDL_RenderPresent renderer]).
Proof.
  split.
  - apply main_loop_calls.
  - apply without_polls_main_loop.
Qed.

(** C3.  On every path on which [main] returns, the resources the log shows
    to have been acquired (the library when [SDL_Init] succeeded, the window
    and the renderer when their handles are not null) are the resources it
    shows to have been released ([SDL_Quit], [SDL_DestroyWindow],
    [SDL_DestroyRenderer]), each exactly once and nothing else. *)
Theorem acquired_resources_are_released env code :
  value (main env) = Some code ->
  released (calls (main env)) ≡ₚ acquired env (calls (main env))
  /\ NoDup (released (calls (main env))).
Proof.
  intros Hret.
  destruct (init_status env <? 0) eqn:Ei.
  { rewrite main_init_failed by lia. unfold released, acquired.
    cbn [calls snd omap list_omap]. rewrite Ei.
    split; [reflexivity|apply NoDup_nil_2]. }
  destruct (new_window env =? NULL) eqn:Ew.
  { rewrite main_window_failed by lia. unfold released, acquired.
    cbn [calls snd omap list_omap]. rewrite Ei, Ew.
    split; [reflexivity|distinct_resources]. }
  destruct (new_renderer env =? NULL) eqn:Er.
  { rewrite main_renderer_failed by lia. unfold released, acquired.
    cbn [calls snd startup_calls app omap list_omap]. rewrite Ei, Ew, Er.
    split; [reflexivity|distinct_resources]. }
  revert Hret. rewrite main_started by lia.
  destruct (value (main_loop (frames env) (new_renderer env) true)) eqn:Hrun;
    [discriminate|intros _].
  cbn [calls snd]. rewrite main_loop_calls.
  unfold released, acquired. rewrite !omap_app.
  fold (released (concat (map (frame_calls (new_renderer env))
                            (played (frames env))))).
  fold (acquired env (concat (map (frame_calls (new_renderer env))
                               (played (frames env))))).
  rewrite released_frames, acquired_frames.
  cbn [startup_calls cleanup_calls omap list_omap app]. rewrite Ei, Ew, Er.
  split.
  - apply Permutation_cons; [reflexivity|]. apply perm_swap.
  - distinct_resources.
Qed.

(** A run on which [main] returns [EXIT_SUCCESS]. *)
Lemma acquired_resources_are_released_witness :
  value (main (sample_env [[key_event]; [key_event; quit_event]]))
  = Some EXIT_SUCCESS
  /\ released (calls (main (sample_env [[key_event]; [key_event; quit_event]])))
     ≡ₚ acquired (sample_env [[key_event]; [key_event; quit_event]])
          (calls (main (sample_env [[key_event]; [key_event; quit_event]]))).
Proof.
  split; [reflexivity|].
  apply (acquired_resources_are_released
           (sample_env [[key_event]; [key_event; quit_event]]) EXIT_SUCCESS).
  reflexivity.
Defined.

(** C10.  When an [SDL_QUIT] event [q] is polled in some pass (no earlier
    pass having seen one), the loop first polls the rest of that pass's
    events, then renders that pass once more ([SDL_SetRenderDrawColor],
    [SDL_RenderClear], [SDL_RenderPresent]), and only then leaves the loop:
    [SDL_Quit] and the two deleters follow, and [main] returns
    [EXIT_SUCCESS].  No later frame is polled or rendered. *)
Theorem quit_finishes_the_frame env before pre q post later :
  0 <= init_status env -> new_window env <> NULL -> new_renderer env <> NULL ->
  frames env = before ++ (pre ++ q :: post) :: later ->
  Forall (fun pending => has_quit pending = false) before ->
  type q = SDL_QUIT ->
  main env
  = (Some EXIT_SUCCESS,
     startup_calls env
       ++ concat (map (frame_calls (new_renderer env)) before)
       ++ poll_calls pre
       ++ Call_SDL_PollEvent (Some q) :: poll_calls post
       ++ [Call_SDL_PollEvent None;
           Call_SDL_SetRenderDrawColor (new_renderer env) 20 20 30 255;
           Call_SDL_RenderClear (new_renderer env);
           Call_SDL_RenderPresent (new_renderer env);
           Call_SDL_Quit;
           Call_SDL_DestroyRenderer (new_renderer env);
           Call_SDL_DestroyWindow (new_window env)]).
Proof.
  intros Hi Hw Hr Hframes Hbefore Hq.
  assert (has_quit (pre ++ q :: post) = true) as Hhas.
  { apply has_quit_spec. exists q. split; [|assumption].
    apply elem_of_app. right. left. }
  rewrite main_started by assumption.
  rewrite main_loop_value, main_loop_calls, Hframes.
  rewrite existsb_until_quit by assumption. cbn [negb].
  rewrite played_until_quit by assumption.
  rewrite map_app, concat_app. cbn [map concat].
  unfold frame_calls at 2, poll_calls at 1. rewrite map_app. cbn [map].
  fold (poll_calls pre). fold (poll_calls post).
  unfold cleanup_calls, render_calls.
  rewrite app_nil_r. do 2 f_equal.
  repeat (rewrite <- List.app_assoc; cbn [app]). reflexivity.
Qed.

Lemma quit_finishes_the_frame_witness :
  main (sample_env [[key_event]; [key_event; quit_event; key_event]; [key_event]])
  = (Some EXIT_SUCCESS,
     startup_calls (sample_env [])
       ++ frame_calls 2000 [key_event]
       ++ [Call_SDL_PollEvent (Some key_event);
           Call_SDL_PollEvent (Some quit_event);
           Call_SDL_PollEvent (Some key_event);
           Call_SDL_PollEvent None;
           Call_SDL_SetRenderDrawColor 2000 20 20 30 255;
           Call_SDL_RenderClear 2000;
           Call_SDL_RenderPresent 2000;
           Call_SDL_Quit;
           Call_SDL_DestroyRenderer 2000;
           Call_SDL_DestroyWindow 1000]).
Proof.
  apply (quit_finishes_the_frame
           (sample_env [[key_event]; [key_event; quit_event; key_event];
                        [key_event]])
           [[key_event]] [key_event] quit_event [key_event] [[key_event]]).
  - cbn; lia.
  - cbn; unfold NULL; lia.
  - cbn; unfold NULL; lia.
  - reflexivity.
  - repeat constructor.
  - reflexivity.
Defined.

(** ** More about [main]: its paths, its exit code, its handles *)

(** Every run of [main] takes one of four paths. *)
Lemma main_paths env :
  (init_status env < 0
   /\ main env
      = (Some EXIT_FAILURE,
         [Call_SDL_Init SDL_INIT_VIDEO;
          Call_cerr "SDL could not initialize! SDL_Error: ";
          Call_SDL_GetError;
          Call_cerr (last_error env);
          Call_endl]))
  \/ (0 <= init_status env /\ new_window env = NULL
      /\ main env
         = (Some EXIT_FAILURE,
            [Call_SDL_Init SDL_INIT_VIDEO;
             Call_SDL_CreateWindow "Software Rasterizer" SDL_WINDOWPOS_CENTERED
               SDL_WINDOWPOS_CENTERED SCREEN_WIDTH SCREEN_HEIGHT
               SDL_WINDOW_SHOWN;
             Call_cerr "Window could not be created! SDL_Error: ";
             Call_SDL_GetError;
             Call_cerr (last_error env);
             Call_endl;
             Call_SDL_Quit]))
  \/ (0 <= init_status env /\ new_window env <> NULL
      /\ new_renderer env = NULL
      /\ main env
         = (Some EXIT_FAILURE,
            startup_calls env
              ++ [Call_cerr "Renderer could not be created! SDL_Error: ";
                  Call_SDL_GetError;
                  Call_cerr (last_error env);
                  Call_endl;
                  Call_SDL_Quit;
                  Call_SDL_DestroyWindow (new_window env)]))
  \/ (0 <= init_status env /\ new_window env <> NULL
      /\ new_renderer env <> NULL
      /\ main env
         = (if existsb has_quit (frames env) then Some EXIT_SUCCESS else None,
            startup_calls env
              ++ concat (map (frame_calls (new_renderer env))
                           (played (frames env)))
              ++ if existsb has_quit (frames env) then cleanup_calls env
                 else [])).
Proof.
  destruct (Z.ltb_spec (init_status env) 0) as [Hi|Hi].
  { left. split; [assumption|]. now apply main_init_failed. }
  destruct (Z.eqb_spec (new_window env) NULL) as [Hw|Hw].
  { right; left. repeat split; try assumption. now apply main_window_failed. }
  destruct (Z.eqb_spec (new_renderer env) NULL) as [Hr|Hr].
  { right; right; left. repeat split; try assumption.
    now apply main_renderer_failed. }
  right; right; right. repeat split; try assumption.
  rewrite main_started, main_loop_value, main_loop_calls by assumption.
  destruct (existsb has_quit (frames env)); cbn [negb];
    rewrite ?app_nil_r; reflexivity.
Qed.

Lemma omap_frames {B} (f : Call -> option B) renderer fs :
  (forall returned, f (Call_SDL_PollEvent returned) = None) ->
  omap f (concat (map (frame_calls renderer) fs))
  = concat (replicate (length fs) (omap f (render_calls renderer))).
Proof.
  intros Hpoll. induction fs as [|pending fs IH]; [reflexivity|].
  cbn [map concat length replicate]. rewrite omap_app, IH. f_equal.
  unfold frame_calls. rewrite omap_app.
  replace (omap f (poll_calls pending)) with (@nil B).
  - cbn [app omap list_omap]. rewrite Hpoll. reflexivity.
  - induction pending as [|e pending IHp]; [reflexivity|].
    cbn [poll_calls map omap list_omap]. rewrite Hpoll. exact IHp.
Qed.

Lemma concat_replicate_nil {B} n : concat (replicate n (@nil B)) = [].
Proof. induction n as [|n IH]; [reflexivity|exact IH]. Qed.

Lemma Forall_concat_replicate {B} (P : B -> Prop) n (l : list B) :
  Forall P l -> Forall P (concat (replicate n l)).
Proof.
  intros Hl. induction n as [|n IH]; [constructor|].
  cbn [replicate concat]. apply Forall_app. auto.
Qed.

Lemma drawing_frames renderer fs :
  drawing (concat (map (frame_calls renderer) fs))
  = concat (replicate (length fs) (render_calls renderer)).
Proof.
  induction fs as [|pending fs IH]; [reflexivity|].
  cbn [map concat length replicate]. unfold drawing in *.
  rewrite List.filter_app, IH. f_equal.
  unfold frame_calls. rewrite List.filter_app.
  replace (List.filter is_drawing (poll_calls pending)) with (@nil Call);
    [reflexivity|].
  induction pending as [|e pending IHp]; [reflexivity|exact IHp].
Qed.

Lemma played_app frames more :
  played (frames ++ more)
  = played frames ++ if existsb has_quit frames then [] else played more.
Proof.
  induction frames as [|pending later IH]; [reflexivity|].
  cbn [app played existsb]. destruct (has_quit pending); cbn [orb].
  - reflexivity.
  - rewrite IH. reflexivity.
Qed.

Lemma played_all frames :
  existsb has_quit frames = false -> played frames = frames.
Proof.
  induction frames as [|pending later IH]; [reflexivity|].
  cbn [existsb played]. destruct (has_quit pending); [discriminate|].
  cbn [orb]. intros Hno. rewrite IH by exact Hno. reflexivity.
Qed.

Lemma filter_endl_frames renderer fs :
  length (List.filter (fun c => match c with Call_endl => true | _ => false end)
            (concat (map (frame_calls renderer) fs))) = 0%nat.
Proof.
  induction fs as [|pending fs IH]; [reflexivity|].
  cbn [map concat]. rewrite List.filter_app, length_app, IH.
  unfold frame_calls. rewrite List.filter_app, length_app.
  replace (List.filter (fun c => match c with Call_endl => true | _ => false end)
             (poll_calls pending)) with (@nil Call); [reflexivity|].
  induction pending as [|e pending IHp]; [reflexivity|exact IHp].
Qed.

(** X1.  The value [main] returns is decided by what SDL answers:
    [EXIT_FAILURE] exactly when [SDL_Init] reports an error or one of the two
    handles is null, [EXIT_SUCCESS] exactly when all three succeed and some
    frame holds an [SDL_QUIT] event; with all three succeeding and no such
    event [main] is still in its loop. *)
Theorem main_exit_code env :
  (value (main env) = Some EXIT_FAILURE
   <-> init_status env < 0 \/ new_window env = NULL \/ new_renderer env = NULL)
  /\ (value (main env) = Some EXIT_SUCCESS
      <-> 0 <= init_status env /\ new_window env <> NULL
          /\ new_renderer env <> NULL
          /\ existsb has_quit (frames env) = true)
  /\ (value (main env) = None
      <-> 0 <= init_status env /\ new_window env <> NULL
          /\ new_renderer env <> NULL
          /\ existsb has_quit (frames env) = false).
Proof.
  destruct (main_paths env)
    as [(Hi & ->)|[(Hi & Hw & ->)|[(Hi & Hw & Hr & ->)|(Hi & Hw & Hr & ->)]]];
    cbn [value fst]; unfold EXIT_FAILURE, EXIT_SUCCESS.
  - repeat split; try (intros; discriminate); try (intros; lia); auto.
  - repeat split; try (intros; discriminate); try (intros; lia); auto.
    all: intros (_ & Hne & _); contradiction.
  - repeat split; try (intros; discriminate); try (intros; lia); auto.
    all: intros (_ & _ & Hne & _); contradiction.
  - destruct (existsb has_quit (frames env));
      repeat split; try (intros; discriminate); try (intros; lia); auto.
    all: try (intros [?|[?|?]]; (lia || contradiction)).
    all: intros (_ & _ & _ & ?); discriminate.
Qed.

(** X2.  [main] writes to [std::cerr] only when an initialisation step
    fails, and then exactly one line: the text for that step, then what
    [SDL_GetError] returned, then [std::endl], which ends the line and
    flushes once.  On such a run no event is polled and nothing is drawn. *)
Theorem failure_is_reported_once env :
  reports (calls (main env))
  = (if init_status env <? 0
     then ["SDL could not initialize! SDL_Error: "; last_error env; newline]
     else if new_window env =? NULL
     then ["Window could not be created! SDL_Error: "; last_error env; newline]
     else if new_renderer env =? NULL
     then ["Renderer could not be created! SDL_Error: "; last_error env;
           newline]
     else [])
  /\ flushes (calls (main env))
     = (if (init_status env <? 0) || (new_window env =? NULL)
           || (new_renderer env =? NULL)
        then 1%nat else 0%nat)
  /\ (reports (calls (main env)) <> [] ->
      polled (calls (main env)) = []
      /\ drawing (calls (main env)) = []
      /\ Call_SDL_PollEvent None ∉ calls (main env)).
Proof.
  destruct (main_paths env)
    as [(Hi & ->)|[(Hi & Hw & ->)|[(Hi & Hw & Hr & ->)|(Hi & Hw & Hr & ->)]]];
    cbn [calls snd].
  - destruct (Z.ltb_spec (init_status env) 0); [|lia].
    split; [reflexivity|]. split; [reflexivity|]. intros _. repeat split.
    rewrite !elem_of_cons, elem_of_nil. intuition discriminate.
  - destruct (Z.ltb_spec (init_status env) 0); [lia|].
    rewrite Hw. split; [reflexivity|]. split; [reflexivity|].
    intros _. repeat split.
    rewrite !elem_of_cons, elem_of_nil. intuition discriminate.
  - destruct (Z.ltb_spec (init_status env) 0); [lia|].
    destruct (Z.eqb_spec (new_window env) NULL); [contradiction|].
    rewrite Hr. split; [reflexivity|]. split; [reflexivity|].
    intros _. repeat split.
    cbn [startup_calls app].
    rewrite !elem_of_cons, elem_of_nil. intuition discriminate.
  - destruct (Z.ltb_spec (init_status env) 0); [lia|].
    destruct (Z.eqb_spec (new_window env) NULL); [contradiction|].
    destruct (Z.eqb_spec (new_renderer env) NULL); [contradiction|].
    cbn [orb].
    assert (reports
              (startup_calls env
                 ++ concat (map (frame_calls (new_renderer env))
                              (played (frames env)))
                 ++ (if existsb has_quit (frames env)
                     then cleanup_calls env else [])) = []) as Hnone.
    { unfold reports. rewrite !omap_app, omap_frames by reflexivity.
      cbn [render_calls omap list_omap]. rewrite concat_replicate_nil.
      destruct (existsb has_quit (frames env)); reflexivity. }
    split; [exact Hnone|]. split; [|intros Hsome; contradiction].
    unfold flushes. rewrite !List.filter_app, !length_app.
    rewrite filter_endl_frames.
    destruct (existsb has_quit (frames env)); reflexivity.
Qed.

(** X3.  Every handle [main] passes to SDL is one SDL gave it, and is not
    null: [SDL_CreateRenderer] and [SDL_DestroyWindow] only ever get the
    window [SDL_CreateWindow] returned, the drawing calls and
    [SDL_DestroyRenderer] only the renderer [SDL_CreateRenderer] returned;
    neither deleter is run on a null handle.  This holds for every run,
    finished or still in the loop. *)
Theorem handles_are_valid env :
  Forall (fun w => w = new_window env /\ w <> NULL)
    (window_args (calls (main env)))
  /\ Forall (fun r => r = new_renderer env /\ r <> NULL)
       (renderer_args (calls (main env))).
Proof.
  destruct (main_paths env)
    as [(Hi & ->)|[(Hi & Hw & ->)|[(Hi & Hw & Hr & ->)|(Hi & Hw & Hr & ->)]]];
    cbn [calls snd].
  - split; constructor.
  - split; constructor.
  - split; repeat constructor; assumption.
  - unfold window_args, renderer_args.
    rewrite !omap_app, !omap_frames by reflexivity.
    cbn [startup_calls render_calls omap list_omap].
    rewrite concat_replicate_nil. split.
    + apply Forall_app. split; [repeat constructor; assumption|].
      destruct (existsb has_quit (frames env)); repeat constructor; assumption.
    + cbn [app]. apply Forall_app. split.
      * apply Forall_concat_replicate. repeat constructor; assumption.
      * destruct (existsb has_quit (frames env));
          repeat constructor; assumption.
Qed.

(** X4.  When [main] returns, its release calls come in one order:
    [SDL_Quit] first, then the renderer's deleter, then the window's; the
    deleters of the [unique_ptr]s run at scope exit, after the [SDL_Quit()]
    statement before the [return]. *)
Theorem cleanup_order env code :
  value (main env) = Some code ->
  released (calls (main env))
  = if init_status env <? 0 then []
    else Library
         :: if new_window env =? NULL then []
            else (if new_renderer env =? NULL then []
                  else [Renderer (new_renderer env)])
                 ++ [Window (new_window env)].
Proof.
  destruct (main_paths env)
    as [(Hi & ->)|[(Hi & Hw & ->)|[(Hi & Hw & Hr & ->)|(Hi & Hw & Hr & ->)]]];
    cbn [calls value fst snd]; intros Hret.
  - destruct (Z.ltb_spec (init_status env) 0); [reflexivity|lia].
  - destruct (Z.ltb_spec (init_status env) 0); [lia|].
    rewrite Hw. reflexivity.
  - destruct (Z.ltb_spec (init_status env) 0); [lia|].
    destruct (Z.eqb_spec (new_window env) NULL); [contradiction|].
    rewrite Hr. reflexivity.
  - destruct (Z.ltb_spec (init_status env) 0); [lia|].
    destruct (Z.eqb_spec (new_window env) NULL); [contradiction|].
    destruct (Z.eqb_spec (new_renderer env) NULL); [contradiction|].
    destruct (existsb has_quit (frames env)); [|discriminate].
    unfold released. rewrite !omap_app, omap_frames by reflexivity.
    cbn [render_calls omap list_omap]. rewrite concat_replicate_nil.
    reflexivity.
Qed.

Lemma cleanup_order_witness :
  released (calls (main (sample_env [[key_event; quit_event]])))
  = [Library; Renderer 2000; Window 1000].
Proof.
  apply (cleanup_order (sample_env [[key_event; quit_event]]) EXIT_SUCCESS).
  reflexivity.
Defined.

Lemma omap_frames_polled renderer fs :
  omap (fun c => match c with Call_SDL_PollEvent r => r | _ => None end)
    (concat (map (frame_calls renderer) fs))
  = concat fs.
Proof.
  induction fs as [|pending fs IH]; [reflexivity|].
  cbn [map concat]. rewrite omap_app, IH. f_equal.
  apply polled_frame_calls.
Qed.

(** X5.  One run of the inner loop empties the queue: every pending event
    is polled, those behind an [SDL_QUIT] too (the loop has no [break]), and
    the loop ends with [running] still set only if it was set before and no
    polled event is an [SDL_QUIT]; a later event never sets it again. *)
Theorem poll_events_drains_the_queue pending running :
  polled (calls (poll_events pending running)) = pending
  /\ (value (poll_events pending running) = true
      <-> running = true /\ Forall (fun event => type event <> SDL_QUIT) pending).
Proof.
  split.
  - rewrite poll_events_calls, polled_app, polled_poll_calls.
    apply app_nil_r.
  - rewrite poll_events_value, andb_true_iff, negb_true_iff.
    apply and_iff_compat_l.
    unfold has_quit. induction pending as [|e pending IH]; cbn [existsb].
    + split; [constructor|reflexivity].
    + rewrite orb_false_iff, IH, list.Forall_cons. unfold is_quit.
      apply and_iff_compat_r. rewrite Z.eqb_neq. reflexivity.
Qed.

(** X6.  As long as no [SDL_QUIT] has arrived, [main] has polled every event
    handed to it, has drawn once per frame, and still holds the library, the
    window and the renderer: nothing has been released. *)
Theorem running_loop_keeps_resources env :
  value (main env) = None ->
  polled (calls (main env)) = concat (frames env)
  /\ drawing (calls (main env))
     = concat (replicate (length (frames env))
                 (render_calls (new_renderer env)))
  /\ acquired env (calls (main env))
     = [Library; Window (new_window env); Renderer (new_renderer env)]
  /\ released (calls (main env)) = [].
Proof.
  destruct (main_paths env)
    as [(Hi & ->)|[(Hi & Hw & ->)|[(Hi & Hw & Hr & ->)|(Hi & Hw & Hr & ->)]]];
    cbn [calls value fst snd]; try discriminate.
  destruct (existsb has_quit (frames env)) eqn:Hq; [discriminate|intros _].
  rewrite played_all, app_nil_r by exact Hq.
  split; [|split; [|split]].
  - rewrite polled_app. fold (polled (calls (main_loop (frames env) (new_renderer env) true))).
    unfold polled at 1. cbn [startup_calls omap list_omap app].
    unfold polled. rewrite omap_frames_polled. reflexivity.
  - unfold drawing. rewrite List.filter_app.
    fold (drawing (concat (map (frame_calls (new_renderer env)) (frames env)))).
    rewrite drawing_frames. reflexivity.
  - unfold acquired. rewrite omap_app, omap_frames by reflexivity.
    cbn [startup_calls render_calls omap list_omap].
    rewrite concat_replicate_nil.
    destruct (Z.ltb_spec (init_status env) 0); [lia|].
    destruct (Z.eqb_spec (new_window env) NULL); [contradiction|].
    destruct (Z.eqb_spec (new_renderer env) NULL); [contradiction|].
    reflexivity.
  - unfold released. rewrite omap_app, omap_frames by reflexivity.
    cbn [startup_calls render_calls omap list_omap].
    rewrite concat_replicate_nil. reflexivity.
Qed.

Lemma running_loop_keeps_resources_witness :
  released (calls (main (sample_env [[key_event]; []; [key_event; key_event]])))
  = []
  /\ length (drawing
               (calls (main (sample_env
                               [[key_event]; []; [key_event; key_event]]))))
     = 9%nat.
Proof.
  destruct (running_loop_keeps_resources
              (sample_env [[key_event]; []; [key_event; key_event]]) eq_refl)
    as (_ & Hdrawn & _ & Hreleased).
  split; [exact Hreleased|]. rewrite Hdrawn. reflexivity.
Defined.

(** X7.  Events that arrive later only add to what [main] has done: the log
    of a run is a prefix of the log of the same run with more frames of
    events queued behind, and once [main] has returned further events change
    nothing at all. *)
Theorem later_events_extend_the_log env more :
  calls (main env) `prefix_of` calls (main (with_more_frames env more))
  /\ (forall code,
        value (main env) = Some code ->
        main (with_more_frames env more) = main env).
Proof.
  destruct (main_paths env)
    as [(Hi & ->)|[(Hi & Hw & ->)|[(Hi & Hw & Hr & ->)|(Hi & Hw & Hr & ->)]]].
  - rewrite (main_init_failed (with_more_frames env more)) by exact Hi.
    split; [reflexivity|]. reflexivity.
  - rewrite (main_window_failed (with_more_frames env more)) by assumption.
    split; [reflexivity|]. reflexivity.
  - rewrite (main_renderer_failed (with_more_frames env more)) by assumption.
    split; [reflexivity|]. reflexivity.
  - destruct (main_paths (with_more_frames env more))
      as [(Hi' & _)|[(_ & Hw' & _)|[(_ & _ & Hr' & _)|(_ & _ & _ & ->)]]];
      cbn [with_more_frames init_status new_window new_renderer] in *;
      [lia|contradiction|contradiction|].
    change (startup_calls (with_more_frames env more)) with (startup_calls env).
    change (cleanup_calls (with_more_frames env more)) with (cleanup_calls env).
    change (frames (with_more_frames env more)) with (frames env ++ more).
    rewrite played_app, existsb_app.
    destruct (existsb has_quit (frames env)); cbn [orb value calls fst snd].
    + rewrite app_nil_r. split; [reflexivity|]. reflexivity.
    + split; [|intros code; discriminate].
      rewrite app_nil_r, map_app, concat_app.
      apply prefix_app, prefix_app_r, prefix_app_r. reflexivity.
Qed.

(** * Properties of the framebuffer and the depth test *)

Section Planes.
Context {A : Type}.
Implicit Types (p : Plane A) (x y : Z) (v w : A).

Lemma in_bounds_spec p x y :
  in_bounds p x y = true
  <-> 0 <= x < plane_width p /\ 0 <= y < plane_height p.
Proof. unfold in_bounds. rewrite !andb_true_iff. lia. Qed.

Lemma plane_set_width p x y v :
  plane_width (plane_set p x y v) = plane_width p.
Proof. unfold plane_set. destruct (in_bounds p x y); reflexivity. Qed.

Lemma plane_set_height p x y v :
  plane_height (plane_set p x y v) = plane_height p.
Proof. unfold plane_set. destruct (in_bounds p x y); reflexivity. Qed.

Lemma in_bounds_plane_set p x y v x' y' :
  in_bounds (plane_set p x y v) x' y' = in_bounds p x' y'.
Proof. unfold in_bounds. rewrite plane_set_width, plane_set_height. reflexivity. Qed.

Lemma offset_plane_set p x y v x' y' :
  offset (plane_set p x y v) x' y' = offset p x' y'.
Proof. unfold offset. rewrite plane_set_width. reflexivity. Qed.

(** Row-major positions of distinct pixels inside the plane differ. *)
Lemma offset_inj p x y x' y' :
  in_bounds p x y = true -> in_bounds p x' y' = true ->
  offset p x y = offset p x' y' -> (x, y) = (x', y').
Proof.
  rewrite !in_bounds_spec. unfold offset. intros Hb Hb' Heq.
  apply Z2Nat.inj in Heq; [|nia|nia].
  assert (y = y') as -> by nia.
  f_equal. lia.
Qed.

Lemma offset_in_range p x y :
  plane_wf p -> in_bounds p x y = true ->
  (offset p x y < length (cells p))%nat.
Proof.
  intros (Hw & Hh & Hlen). rewrite in_bounds_spec. unfold offset. intros Hb.
  apply Nat2Z.inj_lt. rewrite Hlen, Z2Nat.id by nia. nia.
Qed.

Lemma plane_get_set_eq p x y v :
  is_Some (plane_get p x y) -> plane_get (plane_set p x y v) x y = Some v.
Proof.
  unfold plane_get at 1. intros Hsome.
  unfold plane_get. rewrite in_bounds_plane_set, offset_plane_set.
  destruct (in_bounds p x y) eqn:Hb; [|destruct Hsome; discriminate].
  unfold plane_set. rewrite Hb. cbn [cells].
  apply list_lookup_insert_eq, lookup_lt_is_Some. exact Hsome.
Qed.

Lemma plane_get_set_ne p x y v x' y' :
  (x, y) <> (x', y') ->
  plane_get (plane_set p x y v) x' y' = plane_get p x' y'.
Proof.
  intros Hne. unfold plane_get.
  rewrite in_bounds_plane_set, offset_plane_set.
  destruct (in_bounds p x' y') eqn:Hb'; [|reflexivity].
  unfold plane_set. destruct (in_bounds p x y) eqn:Hb; [|reflexivity].
  cbn [cells]. apply list_lookup_insert_ne.
  intros Heq. apply Hne. now apply (offset_inj p).
Qed.

Lemma plane_set_set_eq p x y v w :
  plane_set (plane_set p x y v) x y w = plane_set p x y w.
Proof.
  unfold plane_set at 1. rewrite in_bounds_plane_set, offset_plane_set.
  rewrite plane_set_width, plane_set_height.
  unfold plane_set. destruct (in_bounds p x y); [|reflexivity].
  cbn [cells]. rewrite list_insert_insert_eq. reflexivity.
Qed.

Lemma plane_set_set_ne p x y v x' y' w :
  (x, y) <> (x', y') ->
  plane_set (plane_set p x y v) x' y' w
  = plane_set (plane_set p x' y' w) x y v.
Proof.
  intros Hne.
  unfold plane_set at 1 3.
  rewrite !in_bounds_plane_set, !offset_plane_set.
  rewrite !plane_set_width, !plane_set_height.
  unfold plane_set.
  destruct (in_bounds p x y) eqn:Hb, (in_bounds p x' y') eqn:Hb';
    cbn [cells]; try reflexivity.
  f_equal. apply list_insert_insert_ne.
  intros Heq. apply Hne. symmetry. now apply (offset_inj p).
Qed.

Lemma plane_set_wf p x y v : plane_wf p -> plane_wf (plane_set p x y v).
Proof.
  unfold plane_wf. rewrite plane_set_width, plane_set_height.
  intros (Hw & Hh & Hlen). repeat split; try assumption.
  unfold plane_set. destruct (in_bounds p x y); [|assumption].
  cbn [cells]. rewrite length_insert. assumption.
Qed.

Lemma plane_get_is_Some p x y :
  plane_wf p -> in_bounds p x y = true -> is_Some (plane_get p x y).
Proof.
  intros Hwf Hb. unfold plane_get. rewrite Hb.
  apply lookup_lt_is_Some. now apply offset_in_range.
Qed.

Lemma filled_wf width height v :
  0 < width -> 0 < height -> plane_wf (filled width height v).
Proof.
  intros Hw Hh. unfold plane_wf, filled. cbn.
  rewrite length_replicate, Z2Nat.id by nia. auto.
Qed.
End Planes.

(** ** Writing fragments *)

Lemma write_fragment_unfold fb f :
  write_fragment fb f
  = {| color := plane_set (color fb) (frag_x f) (frag_y f) (frag_color f);
       depth := plane_set (depth fb) (frag_x f) (frag_y f) (frag_depth f) |}.
Proof. reflexivity. Qed.

Lemma getDepth_write_ne fb f x y :
  pixel f <> (x, y) -> getDepth (write_fragment fb f) x y = getDepth fb x y.
Proof. intros Hne. unfold getDepth. cbn. now apply plane_get_set_ne. Qed.

Lemma getPixel_write_ne fb f x y :
  pixel f <> (x, y) -> getPixel (write_fragment fb f) x y = getPixel fb x y.
Proof. intros Hne. unfold getPixel. cbn. now apply plane_get_set_ne. Qed.

Lemma getDepth_write_eq fb f :
  is_Some (getDepth fb (frag_x f) (frag_y f)) ->
  getDepth (write_fragment fb f) (frag_x f) (frag_y f) = Some (frag_depth f).
Proof. intros Hs. unfold getDepth. cbn. now apply plane_get_set_eq. Qed.

Lemma getPixel_write_eq fb f :
  is_Some (getPixel fb (frag_x f) (frag_y f)) ->
  getPixel (write_fragment fb f) (frag_x f) (frag_y f) = Some (frag_color f).
Proof. intros Hs. unfold getPixel. cbn. now apply plane_get_set_eq. Qed.

Lemma write_write_same_pixel fb f g :
  pixel f = pixel g ->
  write_fragment (write_fragment fb f) g = write_fragment fb g.
Proof.
  unfold pixel. intros [= Hx Hy]. rewrite !write_fragment_unfold. cbn.
  rewrite Hx, Hy, !plane_set_set_eq. reflexivity.
Qed.

Lemma write_write_other_pixel fb f g :
  pixel f <> pixel g ->
  write_fragment (write_fragment fb f) g
  = write_fragment (write_fragment fb g) f.
Proof.
  intros Hne. rewrite !write_fragment_unfold. cbn.
  rewrite (plane_set_set_ne (color fb)), (plane_set_set_ne (depth fb))
    by exact Hne.
  reflexivity.
Qed.

Lemma passes_spec fb f :
  passes fb f = true
  <-> exists current,
      getDepth fb (frag_x f) (frag_y f) = Some current
      /\ (frag_depth f < current)%Qc.
Proof.
  unfold passes. destruct (getDepth fb (frag_x f) (frag_y f)) as [d|].
  - rewrite bool_decide_eq_true. split.
    + intros Hlt. exists d. auto.
    + intros (d' & [= <-] & Hlt). exact Hlt.
  - split; [discriminate|]. intros (d' & Hd & _). discriminate.
Qed.

Lemma passes_write_other_pixel fb f g :
  pixel f <> pixel g -> passes (write_fragment fb f) g = passes fb g.
Proof.
  intros Hne. unfold passes. rewrite getDepth_write_ne by exact Hne.
  reflexivity.
Qed.

Lemma write_fragment_inv fb f :
  Framebuffer_inv fb -> Framebuffer_inv (write_fragment fb f).
Proof.
  intros (Hw & Hh & Hc & Hd). rewrite write_fragment_unfold.
  unfold Framebuffer_inv. cbn [color depth].
  rewrite !plane_set_width, !plane_set_height.
  repeat split; try assumption; now apply plane_set_wf.
Qed.

Lemma depth_stage_inv state fb f :
  Framebuffer_inv fb -> Framebuffer_inv (depth_stage state fb f).
Proof.
  intros Hinv. unfold depth_stage.
  destruct (depth_test state), (passes fb f);
    auto using write_fragment_inv.
Qed.

Lemma submit_fragments_inv state fb fragments :
  Framebuffer_inv fb -> Framebuffer_inv (submit_fragments state fb fragments).
Proof.
  revert fb. induction fragments as [|f fragments IH]; intros fb Hinv.
  - exact Hinv.
  - apply IH, depth_stage_inv, Hinv.
Qed.

(** Under the invariant a pixel has a colour exactly when it has a depth. *)
Lemma getPixel_is_Some fb x y :
  Framebuffer_inv fb ->
  is_Some (getDepth fb x y) -> is_Some (getPixel fb x y).
Proof.
  intros (Hw & Hh & Hc & Hd) Hs. unfold getDepth, getPixel in *.
  apply plane_get_is_Some; [assumption|].
  unfold plane_get in Hs.
  destruct (in_bounds (depth fb) x y) eqn:Hb; [|destruct Hs; discriminate].
  unfold in_bounds in *. rewrite Hw, Hh. exact Hb.
Qed.

(** ** Two depth-tested fragments in either order *)

Lemma depth_stage_on state fb f :
  depth_test state = true ->
  depth_stage state fb f = if passes fb f then write_fragment fb f else fb.
Proof. intros Hon. unfold depth_stage. rewrite Hon. reflexivity. Qed.

Lemma depth_stage_off state fb f :
  depth_test state = false -> depth_stage state fb f = write_fragment fb f.
Proof. intros Hoff. unfold depth_stage. rewrite Hoff. reflexivity. Qed.

Lemma depth_stage_comm_other_pixel s1 s2 fb f g :
  depth_test s1 = true -> depth_test s2 = true ->
  pixel f <> pixel g ->
  depth_stage s2 (depth_stage s1 fb f) g
  = depth_stage s1 (depth_stage s2 fb g) f.
Proof.
  intros H1 H2 Hne.
  rewrite (depth_stage_on s1 fb f), (depth_stage_on s2 fb g) by assumption.
  destruct (passes fb f) eqn:Hf, (passes fb g) eqn:Hg;
    rewrite depth_stage_on by assumption;
    rewrite ?passes_write_other_pixel by (exact Hne || (symmetry; exact Hne));
    rewrite ?Hf, ?Hg; try rewrite depth_stage_on by assumption;
    rewrite ?passes_write_other_pixel by (exact Hne || congruence);
    rewrite ?Hf, ?Hg; try reflexivity.
  now apply write_write_other_pixel.
Qed.

Lemma passes_after_write fb f g :
  pixel f = pixel g ->
  is_Some (getDepth fb (frag_x f) (frag_y f)) ->
  passes (write_fragment fb f) g = bool_decide (frag_depth g < frag_depth f)%Qc.
Proof.
  unfold pixel. intros [= Hx Hy] Hs. unfold passes.
  rewrite <- Hx, <- Hy, getDepth_write_eq by exact Hs. reflexivity.
Qed.

(** Of the order of depths the proofs below use two facts only, which the
    order of floating-point numbers has as well: it is transitive, and no
    two depths are each lower than the other. *)
Lemma closer_trans (x y z : Qc) : (x < y)%Qc -> (y < z)%Qc -> (x < z)%Qc.
Proof. apply Qclt_trans. Qed.

Lemma closer_asym (x y : Qc) : (x < y)%Qc -> ~ (y < x)%Qc.
Proof. intros Hxy Hyx. exact (Qclt_not_le _ _ Hxy (Qclt_le_weak _ _ Hyx)). Qed.

(** The closer of two fragments for one pixel, first or second. *)
Lemma depth_stage_closer_first fb f g :
  pixel f = pixel g -> (frag_depth f < frag_depth g)%Qc ->
  (if passes (if passes fb f then write_fragment fb f else fb) g
   then write_fragment (if passes fb f then write_fragment fb f else fb) g
   else if passes fb f then write_fragment fb f else fb)
  = if passes fb f then write_fragment fb f else fb.
Proof.
  intros Hpix Hlt. destruct (passes fb f) eqn:Hf.
  - apply passes_spec in Hf as (d & Hd & Hfd).
    rewrite passes_after_write by (rewrite ?Hd; eauto).
    rewrite bool_decide_eq_false_2; [reflexivity|].
    exact (closer_asym _ _ Hlt).
  - destruct (passes fb g) eqn:Hg; [|reflexivity].
    apply passes_spec in Hg as (d & Hd & Hgd).
    assert (passes fb f = true) as Hf'; [|congruence].
    apply passes_spec. exists d. unfold pixel in Hpix.
    injection Hpix as Hx Hy. rewrite Hx, Hy. split; [exact Hd|].
    exact (closer_trans _ _ _ Hlt Hgd).
Qed.

Lemma depth_stage_closer_second fb f g :
  pixel f = pixel g -> (frag_depth f < frag_depth g)%Qc ->
  (if passes (if passes fb g then write_fragment fb g else fb) f
   then write_fragment (if passes fb g then write_fragment fb g else fb) f
   else if passes fb g then write_fragment fb g else fb)
  = if passes fb f then write_fragment fb f else fb.
Proof.
  intros Hpix Hlt. destruct (passes fb g) eqn:Hg.
  - apply passes_spec in Hg as (d & Hd & Hgd).
    assert (passes fb f = true) as Hf.
    { apply passes_spec. exists d. unfold pixel in Hpix.
      injection Hpix as Hx Hy. rewrite Hx, Hy. split; [exact Hd|].
      exact (closer_trans _ _ _ Hlt Hgd). }
    rewrite Hf, passes_after_write by (rewrite ?Hd; eauto).
    rewrite bool_decide_eq_true_2 by exact Hlt.
    apply write_write_same_pixel. congruence.
  - destruct (passes fb f); reflexivity.
Qed.

Lemma depth_stage_comm_same_pixel s1 s2 fb f g :
  depth_test s1 = true -> depth_test s2 = true ->
  pixel f = pixel g ->
  (frag_depth f < frag_depth g)%Qc \/ (frag_depth g < frag_depth f)%Qc ->
  depth_stage s2 (depth_stage s1 fb f) g
  = depth_stage s1 (depth_stage s2 fb g) f.
Proof.
  intros H1 H2 Hpix [Hlt|Hlt].
  - rewrite (depth_stage_on s1 fb f), (depth_stage_on s2 fb g) by assumption.
    rewrite !depth_stage_on by assumption.
    rewrite (depth_stage_closer_first fb f g),
      (depth_stage_closer_second fb f g) by assumption.
    reflexivity.
  - rewrite (depth_stage_on s1 fb f), (depth_stage_on s2 fb g) by assumption.
    rewrite !depth_stage_on by assumption.
    symmetry in Hpix.
    rewrite (depth_stage_closer_first fb g f),
      (depth_stage_closer_second fb g f) by assumption.
    reflexivity.
Qed.


Lemma depth_stage_comm s1 s2 fb f g :
  depth_test s1 = true -> depth_test s2 = true -> one_is_closer f g ->
  depth_stage s2 (depth_stage s1 fb f) g
  = depth_stage s1 (depth_stage s2 fb g) f.
Proof.
  intros H1 H2 Hex. destruct (decide (pixel f = pixel g)) as [Heq|Hne].
  - apply depth_stage_comm_same_pixel; auto.
  - apply depth_stage_comm_other_pixel; auto.
Qed.

Lemma submit_fragments_cons state fb f fragments :
  submit_fragments state fb (f :: fragments)
  = submit_fragments state (depth_stage state fb f) fragments.
Proof. reflexivity. Qed.

Lemma submit_fragments_comm_one s1 s2 fb f fragments :
  depth_test s1 = true -> depth_test s2 = true ->
  Forall (one_is_closer f) fragments ->
  submit_fragments s2 (depth_stage s1 fb f) fragments
  = depth_stage s1 (submit_fragments s2 fb fragments) f.
Proof.
  intros H1 H2 Hall. revert fb.
  induction Hall as [|g fragments Hg _ IH]; intros fb; [reflexivity|].
  rewrite !submit_fragments_cons.
  rewrite depth_stage_comm by assumption. apply IH.
Qed.

Lemma submit_fragments_comm s1 s2 fb fragments1 fragments2 :
  depth_test s1 = true -> depth_test s2 = true ->
  Forall (fun f => Forall (one_is_closer f) fragments2) fragments1 ->
  submit_fragments s2 (submit_fragments s1 fb fragments1) fragments2
  = submit_fragments s1 (submit_fragments s2 fb fragments2) fragments1.
Proof.
  intros H1 H2 Hall. revert fb.
  induction Hall as [|f fragments1 Hf _ IH]; intros fb; [reflexivity|].
  rewrite !submit_fragments_cons, IH. f_equal.
  now apply submit_fragments_comm_one.
Qed.

(** ** Fragments written without a depth test *)

Lemma is_Some_getPixel_write fb f x y :
  is_Some (getPixel (write_fragment fb f) x y) <-> is_Some (getPixel fb x y).
Proof.
  destruct (decide (pixel f = (x, y))) as [Heq|Hne].
  - unfold pixel in Heq. injection Heq as <- <-. split; intros Hs.
    + unfold getPixel, plane_get in *. cbn [write_fragment setDepth setPixel color] in Hs.
      rewrite in_bounds_plane_set, offset_plane_set in Hs.
      destruct (in_bounds (color fb) (frag_x f) (frag_y f)) eqn:Hb;
        [|destruct Hs; discriminate].
      apply lookup_lt_is_Some. apply lookup_lt_is_Some in Hs.
      unfold plane_set in Hs. rewrite Hb in Hs. cbn [cells] in Hs.
      rewrite length_insert in Hs. exact Hs.
    + rewrite getPixel_write_eq by exact Hs. eauto.
  - rewrite getPixel_write_ne by exact Hne. reflexivity.
Qed.

Lemma submit_off_other_pixels state fb fragments x y :
  depth_test state = false ->
  (x, y) ∉ map pixel fragments ->
  getPixel (submit_fragments state fb fragments) x y = getPixel fb x y
  /\ getDepth (submit_fragments state fb fragments) x y = getDepth fb x y.
Proof.
  intros Hoff. revert fb.
  induction fragments as [|f fragments IH]; intros fb Hnot; [auto|].
  rewrite submit_fragments_cons, depth_stage_off by exact Hoff.
  cbn [map] in Hnot. apply not_elem_of_cons in Hnot as [Hne Hnot].
  destruct (IH (write_fragment fb f) Hnot) as [-> ->].
  rewrite getPixel_write_ne, getDepth_write_ne by congruence. auto.
Qed.

Lemma is_Some_getPixel_depth_stage state fb f x y :
  is_Some (getPixel (depth_stage state fb f) x y) <-> is_Some (getPixel fb x y).
Proof.
  unfold depth_stage. destruct (depth_test state), (passes fb f);
    try reflexivity; apply is_Some_getPixel_write.
Qed.

Lemma is_Some_getPixel_submit state fb fragments x y :
  is_Some (getPixel (submit_fragments state fb fragments) x y)
  <-> is_Some (getPixel fb x y).
Proof.
  revert fb. induction fragments as [|f fragments IH]; intros fb; [reflexivity|].
  rewrite submit_fragments_cons, IH. apply is_Some_getPixel_depth_stage.
Qed.

(** Under the invariant a pixel has a depth exactly when it has a colour. *)
Lemma getDepth_is_Some fb x y :
  Framebuffer_inv fb ->
  is_Some (getPixel fb x y) -> is_Some (getDepth fb x y).
Proof.
  intros (Hw & Hh & Hc & Hd) Hs. unfold getDepth, getPixel in *.
  apply plane_get_is_Some; [assumption|].
  unfold plane_get in Hs.
  destruct (in_bounds (color fb) x y) eqn:Hb; [|destruct Hs; discriminate].
  unfold in_bounds in *. rewrite <- Hw, <- Hh. exact Hb.
Qed.

(** Without a depth test the last fragment for a pixel stays. *)
Lemma submit_off_last_fragment state fb before g after :
  depth_test state = false -> Framebuffer_inv fb ->
  pixel g ∉ map pixel after ->
  is_Some (getPixel fb (frag_x g) (frag_y g)) ->
  getPixel (submit_fragments state fb (before ++ g :: after))
    (frag_x g) (frag_y g) = Some (frag_color g)
  /\ getDepth (submit_fragments state fb (before ++ g :: after))
       (frag_x g) (frag_y g) = Some (frag_depth g).
Proof.
  intros Hoff Hinv Hlast Hs.
  unfold submit_fragments. rewrite foldl_app.
  fold (submit_fragments state fb before).
  fold (submit_fragments state (submit_fragments state fb before) (g :: after)).
  rewrite submit_fragments_cons, depth_stage_off by exact Hoff.
  destruct (submit_off_other_pixels state
              (write_fragment (submit_fragments state fb before) g) after
              (frag_x g) (frag_y g) Hoff Hlast) as [-> ->].
  assert (is_Some (getPixel (submit_fragments state fb before)
                     (frag_x g) (frag_y g))) as Hs'
    by now apply is_Some_getPixel_submit.
  rewrite getPixel_write_eq by exact Hs'.
  rewrite getDepth_write_eq; [auto|].
  apply getDepth_is_Some; [|exact Hs'].
  now apply submit_fragments_inv.
Qed.

(** ** The closest fragment for a pixel stays, with the depth test *)

(** [g] is a fragment closer than every other one for its pixel.  Once the
    pixel holds [g], a further fragment [h] leaves it so. *)
Lemma depth_stage_settled state fb g h :
  depth_test state = true ->
  (pixel h = pixel g -> h = g \/ (frag_depth g < frag_depth h)%Qc) ->
  getPixel fb (frag_x g) (frag_y g) = Some (frag_color g) ->
  getDepth fb (frag_x g) (frag_y g) = Some (frag_depth g) ->
  getPixel (depth_stage state fb h) (frag_x g) (frag_y g) = Some (frag_color g)
  /\ getDepth (depth_stage state fb h) (frag_x g) (frag_y g)
     = Some (frag_depth g).
Proof.
  intros Hon Hh Hcol Hdep. rewrite depth_stage_on by exact Hon.
  destruct (passes fb h) eqn:Hpass; [|auto].
  destruct (decide (pixel h = pixel g)) as [Hpix|Hpix].
  - exfalso. apply passes_spec in Hpass as (current & Hcur & Hlt).
    specialize (Hh Hpix).
    unfold pixel in Hpix. injection Hpix as Hx Hy.
    rewrite Hx, Hy, Hdep in Hcur. injection Hcur as <-.
    destruct Hh as [->|Hgh].
    + exact (closer_asym _ _ Hlt Hlt).
    + exact (closer_asym _ _ Hlt Hgh).
  - rewrite getPixel_write_ne, getDepth_write_ne by exact Hpix. auto.
Qed.

Lemma submit_on_settled state fb fragments g :
  depth_test state = true ->
  (forall h, h ∈ fragments -> pixel h = pixel g ->
             h = g \/ (frag_depth g < frag_depth h)%Qc) ->
  getPixel fb (frag_x g) (frag_y g) = Some (frag_color g) ->
  getDepth fb (frag_x g) (frag_y g) = Some (frag_depth g) ->
  getPixel (submit_fragments state fb fragments) (frag_x g) (frag_y g)
  = Some (frag_color g)
  /\ getDepth (submit_fragments state fb fragments) (frag_x g) (frag_y g)
     = Some (frag_depth g).
Proof.
  intros Hon. revert fb.
  induction fragments as [|h fragments IH]; intros fb Hall Hcol Hdep; [auto|].
  rewrite submit_fragments_cons.
  destruct (depth_stage_settled state fb g h Hon) as [Hcol' Hdep'];
    [apply Hall; left|assumption..|].
  apply IH; [|assumption..]. intros h' Hin. apply Hall. now right.
Qed.

(** While the pixel holds a depth that [g] is closer than, a further
    fragment [h] either is [g] and is written, or leaves the pixel with a
    depth that [g] is still closer than. *)
Lemma depth_stage_pending state fb g h current :
  depth_test state = true -> Framebuffer_inv fb ->
  (pixel h = pixel g -> h = g \/ (frag_depth g < frag_depth h)%Qc) ->
  getDepth fb (frag_x g) (frag_y g) = Some current ->
  (frag_depth g < current)%Qc ->
  (h <> g
   /\ exists current',
       getDepth (depth_stage state fb h) (frag_x g) (frag_y g) = Some current'
       /\ (frag_depth g < current')%Qc)
  \/ (getPixel (depth_stage state fb h) (frag_x g) (frag_y g)
      = Some (frag_color g)
      /\ getDepth (depth_stage state fb h) (frag_x g) (frag_y g)
         = Some (frag_depth g)).
Proof.
  intros Hon Hinv Hh Hcur Hlt. rewrite depth_stage_on by exact Hon.
  destruct (decide (pixel h = pixel g)) as [Hpix|Hpix].
  - assert (frag_x h = frag_x g /\ frag_y h = frag_y g) as [Hx Hy]
      by (unfold pixel in Hpix; injection Hpix; auto).
    destruct (Hh Hpix) as [->|Hgh].
    + right. assert (passes fb g = true) as ->
        by (apply passes_spec; eauto).
      split.
      * apply getPixel_write_eq, getPixel_is_Some; [assumption|].
        rewrite Hcur. eauto.
      * apply getDepth_write_eq. rewrite Hcur. eauto.
    + left. split.
      { intros ->. exact (closer_asym _ _ Hgh Hgh). }
      destruct (passes fb h) eqn:Hpass.
      * exists (frag_depth h). split; [|exact Hgh].
        rewrite <- Hx, <- Hy. apply getDepth_write_eq.
        rewrite Hx, Hy, Hcur. eauto.
      * exists current. auto.
  - left. split; [intros ->; now apply Hpix|].
    exists current. split; [|exact Hlt].
    destruct (passes fb h); [|exact Hcur].
    rewrite getDepth_write_ne by exact Hpix. exact Hcur.
Qed.

Lemma submit_on_pending state fb fragments g current :
  depth_test state = true -> Framebuffer_inv fb ->
  (forall h, h ∈ fragments -> pixel h = pixel g ->
             h = g \/ (frag_depth g < frag_depth h)%Qc) ->
  getDepth fb (frag_x g) (frag_y g) = Some current ->
  (frag_depth g < current)%Qc ->
  ((g ∉ fragments)
   /\ exists current',
       getDepth (submit_fragments state fb fragments) (frag_x g) (frag_y g)
       = Some current'
       /\ (frag_depth g < current')%Qc)
  \/ (getPixel (submit_fragments state fb fragments) (frag_x g) (frag_y g)
      = Some (frag_color g)
      /\ getDepth (submit_fragments state fb fragments) (frag_x g) (frag_y g)
         = Some (frag_depth g)).
Proof.
  intros Hon. revert fb current.
  induction fragments as [|h fragments IH]; intros fb current Hinv Hall Hcur Hlt.
  - left. split; [apply not_elem_of_nil|eauto].
  - rewrite submit_fragments_cons.
    assert (forall h', h' ∈ fragments -> pixel h' = pixel g ->
                       h' = g \/ (frag_depth g < frag_depth h')%Qc) as Hrest
      by (intros h' Hin; apply Hall; now right).
    destruct (depth_stage_pending state fb g h current Hon Hinv)
      as [[Hne (current' & Hcur' & Hlt')]|[Hcol Hdep]];
      [apply Hall; left|assumption..| |].
    + destruct (IH (depth_stage state fb h) current')
        as [[Hnot Hstill]|Hdone];
        [now apply depth_stage_inv|assumption..| |].
      * left. split; [|exact Hstill].
        apply not_elem_of_cons. split; [congruence|exact Hnot].
      * right. exact Hdone.
    + right. now apply submit_on_settled.
Qed.

(** ** [resize] *)

Lemma resize_accepts fb width height :
  0 < width -> 0 < height ->
  snd (resize fb width height) = None
  /\ plane_width (color (fst (resize fb width height))) = width
  /\ plane_height (color (fst (resize fb width height))) = height
  /\ Framebuffer_inv (fst (resize fb width height)).
Proof.
  intros Hw Hh. unfold resize.
  destruct (width <=? 0) eqn:E1; [lia|]. destruct (height <=? 0) eqn:E2; [lia|].
  cbn [orb fst snd color]. split; [reflexivity|].
  split; [reflexivity|]. split; [reflexivity|].
  unfold Framebuffer_inv. cbn [color depth].
  repeat split; try reflexivity; now apply filled_wf.
Qed.

Lemma sample_fb_inv : Framebuffer_inv sample_fb.
Proof.
  unfold Framebuffer_inv, sample_fb. cbn [color depth].
  repeat split; try reflexivity; now apply filled_wf.
Defined.

(** ** The claims about the framebuffer and the depth test *)

(** C6.  Two primitives are submitted one after the other, each given by
    its fragments.  With the depth test enabled for both, and one fragment
    strictly closer than the other wherever both primitives cover a pixel (a
    far and a near triangle), the final framebuffer is the same in either
    order of submission, and closer wins: a pixel ends with the colour and
    the depth of the fragment that is closer than every other fragment for
    that pixel and than the depth the pixel held before.  With the depth test
    disabled for the primitive submitted last, every pixel of the framebuffer
    that this primitive covers ends with the colour and the depth of its last
    fragment for that pixel, whatever was submitted before. *)
Theorem depth_test_submission_order fb s1 s2 fragments1 fragments2 :
  (depth_test s1 = true -> depth_test s2 = true ->
   (forall f g, f ∈ fragments1 -> g ∈ fragments2 ->
                pixel f = pixel g ->
                (frag_depth f < frag_depth g)%Qc
                \/ (frag_depth g < frag_depth f)%Qc) ->
   submit_fragments s2 (submit_fragments s1 fb fragments1) fragments2
   = submit_fragments s1 (submit_fragments s2 fb fragments2) fragments1
   /\ (Framebuffer_inv fb ->
       forall g current,
         g ∈ fragments1 ++ fragments2 ->
         (forall h, h ∈ fragments1 ++ fragments2 -> pixel h = pixel g ->
                    h = g \/ (frag_depth g < frag_depth h)%Qc) ->
         getDepth fb (frag_x g) (frag_y g) = Some current ->
         (frag_depth g < current)%Qc ->
         getPixel
           (submit_fragments s2 (submit_fragments s1 fb fragments1) fragments2)
           (frag_x g) (frag_y g) = Some (frag_color g)
         /\ getDepth
              (submit_fragments s2 (submit_fragments s1 fb fragments1)
                 fragments2)
              (frag_x g) (frag_y g) = Some (frag_depth g)))
  /\ (depth_test s2 = false -> Framebuffer_inv fb ->
      forall before g after,
        fragments2 = before ++ g :: after ->
        pixel g ∉ map pixel after ->
        is_Some (getPixel fb (frag_x g) (frag_y g)) ->
        getPixel
          (submit_fragments s2 (submit_fragments s1 fb fragments1) fragments2)
          (frag_x g) (frag_y g) = Some (frag_color g)
        /\ getDepth
             (submit_fragments s2 (submit_fragments s1 fb fragments1) fragments2)
             (frag_x g) (frag_y g) = Some (frag_depth g)).
Proof.
  split.
  - intros H1 H2 Hcloser. split.
    + apply submit_fragments_comm; [assumption..|].
      apply list.Forall_forall. intros f Hf.
      apply list.Forall_forall. intros g Hg.
      unfold one_is_closer. eauto.
    + intros Hinv g current Hin Hbest Hcur Hlt.
      assert (forall h, h ∈ fragments1 -> pixel h = pixel g ->
                        h = g \/ (frag_depth g < frag_depth h)%Qc) as Hbest1
        by (intros h Hh; apply Hbest, elem_of_app; now left).
      assert (forall h, h ∈ fragments2 -> pixel h = pixel g ->
                        h = g \/ (frag_depth g < frag_depth h)%Qc) as Hbest2
        by (intros h Hh; apply Hbest, elem_of_app; now right).
      destruct (submit_on_pending s1 fb fragments1 g current H1 Hinv Hbest1
                  Hcur Hlt) as [[Hnot1 (c1 & Hc1 & Hlt1)]|[Hcol Hdep]].
      * destruct (submit_on_pending s2 (submit_fragments s1 fb fragments1)
                    fragments2 g c1 H2) as [[Hnot2 _]|Hdone];
          [now apply submit_fragments_inv|assumption..| |exact Hdone].
        exfalso. apply elem_of_app in Hin as [Hin|Hin]; contradiction.
      * now apply submit_on_settled.
  - intros Hoff Hinv before g after -> Hlast Hs.
    apply submit_off_last_fragment; auto using submit_fragments_inv.
    now apply is_Some_getPixel_submit.
Qed.

(** A far red and a near blue fragment for pixel (0,0): either order leaves
    the same framebuffer, with the pixel blue; and a far blue fragment drawn
    last without depth test over a near red one leaves the pixel blue. *)
Lemma depth_test_submission_order_witness :
  (submit_fragments depth_on
     (submit_fragments depth_on sample_fb [fragment_at 0 0 half red_color])
     [fragment_at 0 0 quarter blue_color]
   = submit_fragments depth_on
       (submit_fragments depth_on sample_fb [fragment_at 0 0 quarter blue_color])
       [fragment_at 0 0 half red_color]
   /\ getPixel
        (submit_fragments depth_on
           (submit_fragments depth_on sample_fb
              [fragment_at 0 0 half red_color])
           [fragment_at 0 0 quarter blue_color]) 0 0
      = Some blue_color)
  /\ getPixel
       (submit_fragments depth_off
          (submit_fragments depth_on sample_fb [fragment_at 0 0 quarter red_color])
          [fragment_at 0 0 half blue_color]) 0 0
     = Some blue_color.
Proof.
  split.
  - destruct (proj1 (depth_test_submission_order sample_fb depth_on depth_on
                       [fragment_at 0 0 half red_color]
                       [fragment_at 0 0 quarter blue_color])
                eq_refl eq_refl) as [Horder Hcloser].
    + intros f g Hf Hg _.
      apply list_elem_of_singleton in Hf as ->.
      apply list_elem_of_singleton in Hg as ->.
      right. reflexivity.
    + split; [exact Horder|].
      refine (proj1 (Hcloser sample_fb_inv (fragment_at 0 0 quarter blue_color)
                       far_depth _ _ eq_refl eq_refl)).
      * apply elem_of_app. right. apply list_elem_of_singleton. reflexivity.
      * intros h Hh _. apply elem_of_app in Hh as [Hh|Hh];
          apply list_elem_of_singleton in Hh as ->.
        -- right. reflexivity.
        -- left. reflexivity.
  - refine (proj1 (proj2 (depth_test_submission_order sample_fb depth_on
                            depth_off [fragment_at 0 0 quarter red_color]
                            [fragment_at 0 0 half blue_color])
                     eq_refl sample_fb_inv [] (fragment_at 0 0 half blue_color)
                     [] eq_refl _ _)).
    + apply not_elem_of_nil.
    + cbn. eauto.
Defined.

(** C7.  With the depth test enabled, a fragment that fails it leaves the
    framebuffer as it is, colour plane and depth plane alike; a fragment
    that passes it sets the colour and the depth of its pixel to its own,
    and changes no other pixel. *)
Theorem depth_test_discards_or_writes state fb f :
  depth_test state = true ->
  (passes fb f = false -> depth_stage state fb f = fb)
  /\ (Framebuffer_inv fb -> passes fb f = true ->
      getPixel (depth_stage state fb f) (frag_x f) (frag_y f)
      = Some (frag_color f)
      /\ getDepth (depth_stage state fb f) (frag_x f) (frag_y f)
         = Some (frag_depth f)
      /\ forall x y, (x, y) <> pixel f ->
           getPixel (depth_stage state fb f) x y = getPixel fb x y
           /\ getDepth (depth_stage state fb f) x y = getDepth fb x y).
Proof.
  intros Hon. rewrite depth_stage_on by exact Hon. split.
  - intros ->. reflexivity.
  - intros Hinv Hpass. rewrite Hpass.
    apply passes_spec in Hpass as (d & Hd & _).
    assert (is_Some (getDepth fb (frag_x f) (frag_y f))) as Hs by eauto.
    split; [|split].
    + apply getPixel_write_eq. now apply getPixel_is_Some.
    + now apply getDepth_write_eq.
    + intros x y Hne.
      rewrite getPixel_write_ne, getDepth_write_ne by congruence. auto.
Qed.

Lemma depth_test_discards_or_writes_witness :
  depth_stage depth_on sample_fb (fragment_at 1 0 (2%Qc) red_color) = sample_fb
  /\ getPixel (depth_stage depth_on sample_fb (fragment_at 1 0 half red_color)) 1 0
     = Some red_color
  /\ getDepth (depth_stage depth_on sample_fb (fragment_at 1 0 half red_color)) 1 0
     = Some half.
Proof.
  split.
  - apply (depth_test_discards_or_writes depth_on sample_fb
             (fragment_at 1 0 (2%Qc) red_color)); reflexivity.
  - destruct (depth_test_discards_or_writes depth_on sample_fb
                (fragment_at 1 0 half red_color) eq_refl) as [_ Hpass].
    destruct Hpass as (Hc & Hd & _).
    + exact sample_fb_inv.
    + reflexivity.
    + split; [exact Hc|exact Hd].
Defined.

(** C9.  [resize] with a width or a height that is not positive fails with
    [InvalidDimensions] and leaves the framebuffer as it was: both planes
    keep their dimensions and their contents, and the invariant that the
    two planes have equal dimensions still holds. *)
Theorem resize_rejects_non_positive fb width height :
  width <= 0 \/ height <= 0 ->
  snd (resize fb width height) = Some InvalidDimensions
  /\ fst (resize fb width height) = fb
  /\ (Framebuffer_inv fb -> Framebuffer_inv (fst (resize fb width height))).
Proof.
  intros Hbad. unfold resize.
  assert ((width <=? 0) || (height <=? 0) = true) as ->.
  { apply orb_true_iff. lia. }
  cbn. auto.
Qed.

Lemma resize_rejects_non_positive_witness :
  snd (resize sample_fb 0 5) = Some InvalidDimensions
  /\ fst (resize sample_fb 0 5) = sample_fb
  /\ (Framebuffer_inv sample_fb -> Framebuffer_inv (fst (resize sample_fb 0 5))).
Proof.
  apply (resize_rejects_non_positive sample_fb 0 5). left. lia.
Defined.
